(** * EduHub: the PyMongo accessors and aggregation pipelines of
      [eduhub_queries.py], embedded over a small model of the document store.

    The Python module is a list of one-line calls into the MongoDB driver:
    [insert_one], [update_one], [create_index] and [aggregate] with literal
    pipelines.  The development has three layers.

    - BSON values and documents, the way the driver sees a Python [dict].
    - The store: named collections holding documents and index declarations,
      and the driver operations the module calls, with the exceptions they
      raise.
    - The module itself: every function and pipeline literal that a property
      below talks about, written against that store with the names of the
      source.

    A number is kept by its value, a rational ([Qc]): two numbers that are
    numerically equal are the same value, which is how the server compares
    an int with a double.  Comparisons are exact.  The sums, products and
    quotients of the aggregation stages are the server's: integers are
    computed exactly, and the arithmetic on doubles is a parameter of the
    pipelines ([Arithmetic]), with IEEE 754 binary64 as its instance on the
    sample data. *)

From Stdlib Require Import QArith Qcanon Ascii DecimalString DecimalN.
From stdpp Require Import gmap strings list fin_maps.
From Stdlib Require Import Sorting.Sorted Permutation.

#[local] Set Warnings "-register-all".

(** ** BSON values *)

(** A Python [datetime], kept by its calendar components.  The driver stores
    it as a UTC instant and [$dateToString] prints the same components
    back. *)
Record datetime := DateTime {
  dt_year : N; dt_month : N; dt_day : N;
  dt_hour : N; dt_minute : N; dt_second : N
}.

Inductive value :=
| VNull
| VBool (b : bool)
| VNum (q : Qc)
| VStr (s : string)
| VDate (t : datetime)
| VOid (o : N)
| VArr (l : list value)
| VDoc (d : list (string * value)).

(** A document is an ordered list of fields, as BSON has it. *)
Abbreviation doc := (list (string * value)).

Definition num (z : Z) : value := VNum (Q2Qc (inject_Z z)).

Module Doc.

(** [d[f]] of a Python dict / the value of a top-level field. *)
Fixpoint get (f : string) (d : doc) : option value :=
  match d with
  | [] => None
  | (k, v) :: d' => if String.eqb k f then Some v else get f d'
  end.

Definition has (f : string) (d : doc) : bool :=
  match get f d with Some _ => true | None => false end.

(** [$set] of one field: the value is replaced where the field stands,
    or the field is appended when the document lacks it. *)
Fixpoint set (f : string) (v : value) (d : doc) : doc :=
  match d with
  | [] => [(f, v)]
  | (k, w) :: d' =>
      if String.eqb k f then (k, v) :: d' else (k, w) :: set f v d'
  end.

(** A field read as the server reads it in a comparison: a missing field
    behaves as [null]. *)
Definition get_or_null (f : string) (d : doc) : value :=
  match get f d with Some v => v | None => VNull end.

End Doc.

(** ** Equality of values *)

Definition datetime_eqb (a b : datetime) : bool :=
  N.eqb (dt_year a) (dt_year b) && N.eqb (dt_month a) (dt_month b)
  && N.eqb (dt_day a) (dt_day b) && N.eqb (dt_hour a) (dt_hour b)
  && N.eqb (dt_minute a) (dt_minute b) && N.eqb (dt_second a) (dt_second b).

Definition Qc_eqb (a b : Qc) : bool := Qeq_bool a b.

Fixpoint value_eqb (a b : value) : bool :=
  match a, b with
  | VNull, VNull => true
  | VBool x, VBool y => Bool.eqb x y
  | VNum x, VNum y => Qc_eqb x y
  | VStr x, VStr y => String.eqb x y
  | VDate x, VDate y => datetime_eqb x y
  | VOid x, VOid y => N.eqb x y
  | VArr l1, VArr l2 =>
      (fix go (l1 l2 : list value) : bool :=
         match l1, l2 with
         | [], [] => true
         | x :: l1', y :: l2' => value_eqb x y && go l1' l2'
         | _, _ => false
         end) l1 l2
  | VDoc d1, VDoc d2 =>
      (fix go (d1 d2 : doc) : bool :=
         match d1, d2 with
         | [], [] => true
         | (k1, x) :: d1', (k2, y) :: d2' =>
             String.eqb k1 k2 && value_eqb x y && go d1' d2'
         | _, _ => false
         end) d1 d2
  | _, _ => false
  end.


(** ** The BSON comparison order

    Values of different kinds compare by kind (null, numbers, strings,
    documents, arrays, ObjectIds, booleans, dates, in this order); values
    of one kind compare by content.  [$sort] and the range operators of a
    filter use this order.  None of the pipelines below sorts on an array,
    where the server would compare by the least or greatest element. *)

Definition kind_rank (v : value) : N :=
  match v with
  | VNull => 1 | VNum _ => 2 | VStr _ => 3 | VDoc _ => 4 | VArr _ => 5
  | VOid _ => 7 | VBool _ => 8 | VDate _ => 9
  end%N.

Definition lex (c : comparison) (rest : comparison) : comparison :=
  match c with Eq => rest | _ => c end.

Definition datetime_compare (a b : datetime) : comparison :=
  lex (N.compare (dt_year a) (dt_year b))
  (lex (N.compare (dt_month a) (dt_month b))
  (lex (N.compare (dt_day a) (dt_day b))
  (lex (N.compare (dt_hour a) (dt_hour b))
  (lex (N.compare (dt_minute a) (dt_minute b))
       (N.compare (dt_second a) (dt_second b)))))).

Fixpoint bson_compare (a b : value) : comparison :=
  match a, b with
  | VBool x, VBool y => Bool.compare x y
  | VNum x, VNum y => Qccompare x y
  | VStr x, VStr y => String.compare x y
  | VDate x, VDate y => datetime_compare x y
  | VOid x, VOid y => N.compare x y
  | VArr l1, VArr l2 =>
      (fix go (l1 l2 : list value) : comparison :=
         match l1, l2 with
         | [], [] => Eq
         | [], _ :: _ => Lt
         | _ :: _, [] => Gt
         | x :: l1', y :: l2' => lex (bson_compare x y) (go l1' l2')
         end) l1 l2
  | VDoc d1, VDoc d2 =>
      (fix go (d1 d2 : doc) : comparison :=
         match d1, d2 with
         | [], [] => Eq
         | [], _ :: _ => Lt
         | _ :: _, [] => Gt
         | (k1, x) :: d1', (k2, y) :: d2' =>
             lex (String.compare k1 k2) (lex (bson_compare x y) (go d1' d2'))
         end) d1 d2
  | _, _ => N.compare (kind_rank a) (kind_rank b)
  end.

Definition not_lt (c : comparison) : bool :=
  match c with Lt => false | _ => true end.

Definition not_gt (c : comparison) : bool :=
  match c with Gt => false | _ => true end.

(** ** The store and the process state *)

(** The driver's exceptions that the modelled calls can raise, each with
    the text that [str(e)] gives. *)
Inductive exn :=
| DuplicateKeyError (msg : string)
| BulkWriteError (msg : string)
| OperationFailure (msg : string)
| InvalidId (msg : string)
| TypeError (msg : string).

Definition exn_message (e : exn) : string :=
  match e with
  | DuplicateKeyError m | BulkWriteError m | OperationFailure m
  | InvalidId m | TypeError m => m
  end.

Inductive outcome (A : Type) :=
| Return (a : A)
| Raise (e : exn).
Arguments Return {A} a.
Arguments Raise {A} e.

(** An index declaration: its name, the indexed fields with their
    direction, and whether it is unique. *)
Record index := Index {
  ix_name : string;
  ix_keys : list (string * Z);
  ix_unique : bool
}.

Record coll := Coll {
  c_docs : list doc;
  c_indexes : list index
}.

(** What a run of the module can observe and change: the collections of
    [eduhub_db] by name, the source of fresh ObjectIds, and the lines
    printed so far. *)
Record world := World {
  colls : gmap string coll;
  next_oid : N;
  stdout : list string
}.

Definition ASCENDING : Z := 1.

(** Every collection is born with the unique index on [_id]. *)
Definition id_index : index := Index "_id_" [("_id", ASCENDING)] true.

Definition new_coll : coll := Coll [] [id_index].

(** [db[name]]: a collection that was never written reads as empty. *)
Definition coll_of (w : world) (name : string) : coll :=
  default new_coll (colls w !! name).

Definition put_coll (name : string) (c : coll) (w : world) : world :=
  World (<[name := c]> (colls w)) (next_oid w) (stdout w).

(** Statements of the module: they run in a world and return or raise. *)
Definition M (A : Type) : Type := world → outcome A * world.

Definition ret {A} (a : A) : M A := λ w, (Return a, w).

Definition raise {A} (e : exn) : M A := λ w, (Raise e, w).

Definition bind {A B} (c : M A) (k : A → M B) : M B :=
  λ w, match c w with
       | (Return a, w') => k a w'
       | (Raise e, w') => (Raise e, w')
       end.

Notation "x <~ c ;; k" := (bind c (λ x, k))
  (at level 100, c at next level, right associativity).
Notation "c ;;; k" := (bind c (λ _, k))
  (at level 100, right associativity).

(** [try: body / except Exception as e: handler] *)
Definition try_except {A} (body : M A) (handler : exn → M A) : M A :=
  λ w, match body w with
       | (Return a, w') => (Return a, w')
       | (Raise e, w') => handler e w'
       end.

Definition print (line : string) : M unit :=
  λ w, (Return tt, World (colls w) (next_oid w) (stdout w ++ [line])).

(** Values a Python call hands back. *)
Inductive pyval :=
| PyNone
| PyInsertOneResult (inserted_id : value)
| PyInsertManyResult (inserted_ids : list value)
| PyUpdateResult (matched_count modified_count : N)
| PyStr (s : string).

(** ** ObjectId *)

Definition hex_digit (c : ascii) : option N :=
  let n := N_of_ascii c in
  if (48 <=? n)%N && (n <=? 57)%N then Some (n - 48)%N
  else if (97 <=? n)%N && (n <=? 102)%N then Some (n - 87)%N
  else if (65 <=? n)%N && (n <=? 70)%N then Some (n - 55)%N
  else None.

Fixpoint parse_hex (s : string) (acc : N) : option N :=
  match s with
  | EmptyString => Some acc
  | String c s' =>
      match hex_digit c with
      | Some d => parse_hex s' (16 * acc + d)%N
      | None => None
      end
  end.

(** [ObjectId(s)] for a string: 24 hexadecimal digits, or [InvalidId].
    A string of any other length is refused; so is, here, every string of
    24 characters that are not all hexadecimal digits. *)
Definition ObjectId (s : string) : outcome value :=
  if Nat.eqb (String.length s) 24 then
    match parse_hex s 0 with
    | Some n => Return (VOid n)
    | None => Raise (InvalidId "not a valid ObjectId")
    end
  else Raise (InvalidId "not a valid ObjectId").

(** ** Filters *)

Inductive cond :=
| CEq (v : value)
| CExists (b : bool)
| CGte (v : value)
| CLte (v : value).

(** A filter document [{field: condition, ...}]; all conditions must
    hold. *)
Abbreviation query := (list (string * cond)).

(** A range operator compares only within one kind of value. *)
Definition in_range (test : comparison → bool) (bound x : value) : bool :=
  N.eqb (kind_rank x) (kind_rank bound) && test (bson_compare x bound).

(** An array field satisfies a condition when one of its elements does. *)
Definition or_element (p : value → bool) (x : value) : bool :=
  p x || match x with VArr l => existsb p l | _ => false end.

(** Equality against a field that may be missing: [null] also selects the
    documents without the field. *)
Definition field_eq (v : value) (fv : option value) : bool :=
  match fv with
  | None => value_eqb VNull v
  | Some x => or_element (λ y, value_eqb y v) x
  end.

Definition match_cond (c : cond) (fv : option value) : bool :=
  match c with
  | CEq v => field_eq v fv
  | CExists b => Bool.eqb b (match fv with Some _ => true | None => false end)
  | CGte v => or_element (in_range not_lt v) (default VNull fv)
  | CLte v => or_element (in_range not_gt v) (default VNull fv)
  end.

Definition matches (q : query) (d : doc) : bool :=
  forallb (λ fc, match_cond fc.2 (Doc.get fc.1 d)) q.

(** ** Indexes *)

(** The driver names an index after its keys: [email_1],
    [title_1_category_1]. *)
Definition direction_str (z : Z) : string :=
  match z with
  | Zneg _ => "-1"
  | _ => "1"
  end.

Fixpoint gen_index_name (keys : list (string * Z)) : string :=
  match keys with
  | [] => ""
  | [(f, z)] => f +:+ "_" +:+ direction_str z
  | (f, z) :: rest => f +:+ "_" +:+ direction_str z +:+ "_" +:+ gen_index_name rest
  end.

Definition keys_eqb (a b : list (string * Z)) : bool :=
  bool_decide (a = b).

(** The entry of a document in an index: the values of the indexed fields,
    a missing one as [null]. *)
Definition index_key (ix : index) (d : doc) : list value :=
  map (λ kz, Doc.get_or_null kz.1 d) (ix_keys ix).

Definition key_eqb (a b : list value) : bool :=
  value_eqb (VArr a) (VArr b).

(** Does [d] collide with a stored document on a unique index? *)
Definition violates (ix : index) (stored : list doc) (d : doc) : bool :=
  ix_unique ix && existsb (λ s, key_eqb (index_key ix s) (index_key ix d)) stored.

Definition first_violation (ixs : list index) (stored : list doc) (d : doc)
  : option index :=
  find (λ ix, violates ix stored d) ixs.

Fixpoint has_duplicate_key (ix : index) (docs : list doc) : bool :=
  match docs with
  | [] => false
  | d :: rest =>
      existsb (λ s, key_eqb (index_key ix s) (index_key ix d)) rest
      || has_duplicate_key ix rest
  end.

Definition dup_message (ix : index) : string :=
  "E11000 duplicate key error index: " +:+ ix_name ix.

(** ** Driver operations *)

(** [db[name].insert_one(document)].  The driver gives the document an
    [_id] when it has none; the server refuses a document that collides on
    a unique index and stores it at the end otherwise.  The fresh
    ObjectId is drawn from a counter: what it stands for is an ObjectId
    that was not handed out before.  Of the reasons for which an insert
    can fail, the collision on a unique index is the one that is
    modelled. *)
Definition with_id (document : doc) : M doc :=
  λ w, if Doc.has "_id" document then (Return document, w)
       else (Return (("_id", VOid (next_oid w)) :: document),
             World (colls w) (next_oid w + 1)%N (stdout w)).

Definition store_doc (name : string) (d : doc) : M unit :=
  λ w, let c := coll_of w name in
       match first_violation (c_indexes c) (c_docs c) d with
       | Some ix => (Raise (DuplicateKeyError (dup_message ix)), w)
       | None =>
           (Return tt, put_coll name (Coll (c_docs c ++ [d]) (c_indexes c)) w)
       end.

Definition insert_one (name : string) (document : doc) : M pyval :=
  d <~ with_id document ;;
  store_doc name d ;;;
  ret (PyInsertOneResult (Doc.get_or_null "_id" d)).

(** [db[name].insert_many(documents)].  The driver refuses an empty list,
    gives every document an [_id] first, and the server then stores the
    documents in order, stopping at the first one it refuses. *)
Fixpoint with_ids (documents : list doc) : M (list doc) :=
  match documents with
  | [] => ret []
  | document :: rest =>
      d <~ with_id document ;;
      ds <~ with_ids rest ;;
      ret (d :: ds)
  end.

Fixpoint store_each (name : string) (ds : list doc) : M unit :=
  match ds with
  | [] => ret tt
  | d :: rest =>
      try_except (store_doc name d)
                 (λ e, raise (BulkWriteError (exn_message e))) ;;;
      store_each name rest
  end.

Definition insert_many (name : string) (documents : list doc) : M pyval :=
  match documents with
  | [] => raise (TypeError "documents must be a non-empty list")
  | _ =>
      ds <~ with_ids documents ;;
      store_each name ds ;;;
      ret (PyInsertManyResult (map (Doc.get_or_null "_id") ds))
  end.

(** The update document [{"$set": fields}], for fields named by plain
    top-level names as the updates of the module are. *)
Definition apply_set (fields : doc) (d : doc) : doc :=
  fold_left (λ acc fv, Doc.set fv.1 fv.2 acc) fields d.

(** Position of the first document a filter selects. *)
Fixpoint find_index (q : query) (docs : list doc) : option nat :=
  match docs with
  | [] => None
  | d :: rest =>
      if matches q d then Some 0 else S <$> find_index q rest
  end.

(** [db[name].update_one(filter, {"$set": fields})]: the first document
    selected by the filter is rewritten in place.  The server refuses to
    change [_id] and to break a unique index; nothing is written when no
    document is selected (there is no upsert). *)
Definition update_one (name : string) (filter : query) (fields : doc)
  : M pyval :=
  λ w,
    let c := coll_of w name in
    match find_index filter (c_docs c) with
    | None => (Return (PyUpdateResult 0 0), w)
    | Some i =>
        match c_docs c !! i with
        | None => (Return (PyUpdateResult 0 0), w)
        | Some d =>
            let d' := apply_set fields d in
            if negb (value_eqb (Doc.get_or_null "_id" d') (Doc.get_or_null "_id" d))
            then (Raise (OperationFailure "the (immutable) field '_id' was altered"), w)
            else
              match first_violation (c_indexes c) (delete i (c_docs c)) d' with
              | Some ix => (Raise (DuplicateKeyError (dup_message ix)), w)
              | None =>
                  (Return (PyUpdateResult 1 (if value_eqb (VDoc d') (VDoc d) then 0 else 1)),
                   put_coll name (Coll (<[i := d']> (c_docs c)) (c_indexes c)) w)
              end
        end
    end.

(** [db[name].create_index(keys, unique=...)].  Declaring an index that
    exists with the same name, keys and options changes nothing; the same
    name or the same keys with anything different is refused; a new unique
    index is refused when two stored documents share a key. *)
Definition same_index (a b : index) : bool :=
  String.eqb (ix_name a) (ix_name b) && keys_eqb (ix_keys a) (ix_keys b)
  && Bool.eqb (ix_unique a) (ix_unique b).

Definition clashes (a b : index) : bool :=
  String.eqb (ix_name a) (ix_name b) || keys_eqb (ix_keys a) (ix_keys b).

Definition create_index (name : string) (keys : list (string * Z))
    (unique : bool) : M pyval :=
  λ w,
    let c := coll_of w name in
    let ix := Index (gen_index_name keys) keys unique in
    match find (clashes ix) (c_indexes c) with
    | Some old =>
        if same_index ix old then (Return (PyStr (ix_name ix)), w)
        else (Raise (OperationFailure "an index with other options exists"), w)
    | None =>
        if unique && has_duplicate_key ix (c_docs c)
        then (Raise (DuplicateKeyError (dup_message ix)), w)
        else (Return (PyStr (ix_name ix)),
              put_coll name (Coll (c_docs c) (c_indexes c ++ [ix])) w)
    end.

(** ** Outcomes of evaluation *)

Definition obind {A B} (o : outcome A) (k : A → outcome B) : outcome B :=
  match o with
  | Return a => k a
  | Raise e => Raise e
  end.

Fixpoint omapM {A B} (f : A → outcome B) (l : list A) : outcome (list B) :=
  match l with
  | [] => Return []
  | x :: l' => obind (f x) (λ y, obind (omapM f l') (λ ys, Return (y :: ys)))
  end.

(** ** Numbers

    A number is kept by its value.  The server adds and multiplies
    integers exactly; as soon as a double takes part it computes in double
    precision, and [$avg] always divides in double precision.  How it
    rounds is the server's business, not the module's: the arithmetic on
    doubles is a parameter here, and the pipelines are verified for
    whatever it computes.  A number whose value is an integer is taken as
    an integer; an integer and a double of the same value add and
    multiply alike as long as the results stay below 2^53. *)
Class Arithmetic := {
  (** the sum of numbers, fed in this order, one of them at least a double *)
  fsum : list Qc → Qc;
  (** the product of two numbers, one of them at least a double *)
  fmul : Qc → Qc → Qc;
  (** a sum divided by a count, as [$avg] does *)
  fdiv : Qc → N → Qc
}.

Definition is_integer (q : Qc) : bool := (Qden q =? 1)%positive.

Definition Qc_sum (l : list Qc) : Qc := foldr Qcplus (Q2Qc 0) l.

(** [$sum] of the numbers fed. *)
Definition total `{Arithmetic} (l : list Qc) : Qc :=
  if forallb is_integer l then Qc_sum l else fsum l.

(** One step of [$multiply]. *)
Definition times `{Arithmetic} (x y : Qc) : Qc :=
  if is_integer x && is_integer y then (x * y)%Qc else fmul x y.

(** IEEE 754 binary64 with rounding to nearest, ties to even: [round64]
    is the double nearest to a rational.  (Numbers are finite here: there
    is no overflow to an infinity.) *)
Definition floor_log2 (n d : positive) : Z :=
  let k := (Z.log2 (Zpos n) - Z.log2 (Zpos d))%Z in
  if (0 <=? k)%Z
  then (if (Z.shiftl (Zpos d) k <=? Zpos n)%Z then k else k - 1)%Z
  else (if (Zpos d <=? Z.shiftl (Zpos n) (- k))%Z then k else k - 1)%Z.

Definition nearest_even (a b : Z) : Z :=
  let q := (a / b)%Z in
  let r := (a mod b)%Z in
  match (2 * r ?= b)%Z with
  | Lt => q
  | Gt => (q + 1)%Z
  | Eq => if Z.even q then q else (q + 1)%Z
  end.

Definition scaled (m e : Z) : Qc :=
  if (0 <=? e)%Z then Q2Qc (inject_Z (Z.shiftl m e))
  else Q2Qc (Qmake m (Z.to_pos (Z.shiftl 1 (- e)))).

Definition round64 (q : Qc) : Qc :=
  match Qnum q with
  | Z0 => q
  | Zpos n | Zneg n =>
      let d := Qden q in
      let e := Z.max (floor_log2 n d - 52) (-1074) in
      let m := if (0 <=? e)%Z
               then nearest_even (Zpos n) (Z.shiftl (Zpos d) e)
               else nearest_even (Z.shiftl (Zpos n) (- e)) (Zpos d) in
      scaled (match Qnum q with Zneg _ => - m | _ => m end)%Z e
  end.

(** The arithmetic of a Python float, and of a server that adds doubles
    one after the other. *)
Definition binary64 : Arithmetic := {|
  fsum l := fold_left (λ s x, round64 (s + x)%Qc) l (Q2Qc 0);
  fmul x y := round64 (x * y)%Qc;
  fdiv s n := round64 (s / Q2Qc (inject_Z (Z.of_N n)))%Qc
|}.

(** ** Aggregation expressions *)

Inductive expr :=
| EField (f : string)                       (* "$f" *)
| ELit (v : value)                          (* a constant, as the 1 of {"$sum": 1} *)
| ESize (e : expr)                          (* {"$size": e} *)
| EMultiply (es : list expr)                (* {"$multiply": [e1, ...]} *)
| EDateToString (format : string) (date : expr).

Definition digits (n : N) : string := NilEmpty.string_of_uint (N.to_uint n).

Definition pad2 (n : N) : string :=
  if (n <? 10)%N then "0" +:+ digits n else digits n.

Definition pad4 (n : N) : string :=
  if (n <? 10)%N then "000" +:+ digits n
  else if (n <? 100)%N then "00" +:+ digits n
  else if (n <? 1000)%N then "0" +:+ digits n
  else digits n.

Definition format_spec (c : ascii) (t : datetime) : option string :=
  if Ascii.eqb c "Y" then Some (pad4 (dt_year t))
  else if Ascii.eqb c "m" then Some (pad2 (dt_month t))
  else if Ascii.eqb c "d" then Some (pad2 (dt_day t))
  else if Ascii.eqb c "H" then Some (pad2 (dt_hour t))
  else if Ascii.eqb c "M" then Some (pad2 (dt_minute t))
  else if Ascii.eqb c "S" then Some (pad2 (dt_second t))
  else if Ascii.eqb c "%" then Some "%"
  else None.

Fixpoint format_date (format : string) (t : datetime) : option string :=
  match format with
  | EmptyString => Some EmptyString
  | String c rest =>
      if Ascii.eqb c "%" then
        match rest with
        | EmptyString => None
        | String s rest' =>
            match format_spec s t, format_date rest' t with
            | Some a, Some b => Some (a +:+ b)
            | _, _ => None
            end
        end
      else String c <$> format_date rest t
  end.

(** The value of an expression on a document; [None] is a missing value.
    [$size] wants an array.  [$multiply] takes its operands in order: a
    number is multiplied in, in the server's arithmetic, [null] or a
    missing value makes the product [null] at once, anything else is an
    error.  [$dateToString] of [null]
    or of a missing value is [null].  (The server also prints the time
    inside an ObjectId; the model has dates only.) *)
Fixpoint eval `{Arithmetic} (e : expr) (d : doc) : outcome (option value) :=
  match e with
  | EField f => Return (Doc.get f d)
  | ELit v => Return (Some v)
  | ESize e1 =>
      obind (eval e1 d) (λ v,
        match v with
        | Some (VArr l) => Return (Some (num (Z.of_nat (length l))))
        | _ => Raise (OperationFailure "The argument to $size must be an array")
        end)
  | EMultiply es =>
      (fix go (es : list expr) (acc : Qc) : outcome (option value) :=
         match es with
         | [] => Return (Some (VNum acc))
         | e1 :: es' =>
             obind (eval e1 d) (λ v,
               match v with
               | Some (VNum x) => go es' (times acc x)
               | Some VNull | None => Return (Some VNull)
               | _ => Raise (OperationFailure "$multiply only supports numeric types")
               end)
         end) es (Q2Qc 1)
  | EDateToString format date =>
      obind (eval date d) (λ v,
        match v with
        | Some VNull | None => Return (Some VNull)
        | Some (VDate t) =>
            match format_date format t with
            | Some s => Return (Some (VStr s))
            | None => Raise (OperationFailure "Invalid format character")
            end
        | _ => Raise (OperationFailure "can't convert to Date")
        end)
  end.

(** ** [$group] *)

Inductive accumulator :=
| ASum (e : expr)     (* {"$sum": e} *)
| AAvg (e : expr).    (* {"$avg": e} *)

Definition acc_operand (a : accumulator) : expr :=
  match a with ASum e | AAvg e => e end.

(** The running state of an accumulator: the numbers fed so far, in the
    order in which they came.  Only numbers are accumulated. *)
Inductive acc_state :=
| StSum (fed : list Qc)
| StAvg (fed : list Qc).

Definition acc_init (a : accumulator) : acc_state :=
  match a with
  | ASum _ => StSum []
  | AAvg _ => StAvg []
  end.

Definition acc_feed (st : acc_state) (v : option value) : acc_state :=
  match v with
  | Some (VNum x) =>
      match st with
      | StSum fed => StSum (fed ++ [x])
      | StAvg fed => StAvg (fed ++ [x])
      end
  | _ => st
  end.

Definition Qc_of_N (n : N) : Qc := Q2Qc (inject_Z (Z.of_N n)).

(** [$sum] is the total of the numbers fed, 0 without any; [$avg] is
    that total divided by their number, [null] without any. *)
Definition acc_final `{Arithmetic} (st : acc_state) : value :=
  match st with
  | StSum fed => VNum (total fed)
  | StAvg [] => VNull
  | StAvg fed => VNum (fdiv (total fed) (N.of_nat (length fed)))
  end.

(** One input document, as the group stage sees it: its group key and the
    operand of every accumulator. *)
Abbreviation row := (value * list (option value))%type.

Definition group_row `{Arithmetic} (id : expr) (accs : list (string * accumulator)) (d : doc)
  : outcome row :=
  obind (eval id d) (λ k,
  obind (omapM (λ fa, eval (acc_operand fa.2) d) accs) (λ ops,
  Return (default VNull k, ops))).

Abbreviation table := (list (value * list acc_state)).

Definition feed_all (sts : list acc_state) (ops : list (option value))
  : list acc_state :=
  zip_with acc_feed sts ops.

(** The groups are kept in the order in which their keys first appear. *)
Fixpoint table_add (inits : list acc_state) (r : row) (t : table) : table :=
  match t with
  | [] => [(r.1, feed_all inits r.2)]
  | (k, sts) :: t' =>
      if value_eqb k r.1 then (k, feed_all sts r.2) :: t'
      else (k, sts) :: table_add inits r t'
  end.

Definition group_rows (inits : list acc_state) (rows : list row) : table :=
  fold_left (λ t r, table_add inits r t) rows [].

Definition group_doc `{Arithmetic} (names : list string) (g : value * list acc_state) : doc :=
  ("_id", g.1) :: zip names (map acc_final g.2).

Definition run_group `{Arithmetic} (id : expr) (accs : list (string * accumulator))
    (docs : list doc) : outcome (list doc) :=
  obind (omapM (group_row id accs) docs) (λ rows,
  Return (map (group_doc (map fst accs))
              (group_rows (map (λ fa, acc_init fa.2) accs) rows))).

(** ** [$sort] *)

Definition oriented (direction : Z) (c : comparison) : comparison :=
  match direction with
  | Zneg _ => CompOpp c
  | _ => c
  end.

Fixpoint sort_compare (keys : list (string * Z)) (a b : doc) : comparison :=
  match keys with
  | [] => Eq
  | (f, direction) :: keys' =>
      lex (oriented direction
             (bson_compare (Doc.get_or_null f a) (Doc.get_or_null f b)))
          (sort_compare keys' a b)
  end.

Definition sort_leb (keys : list (string * Z)) (a b : doc) : bool :=
  not_gt (sort_compare keys a b).

Fixpoint sort_insert (keys : list (string * Z)) (x : doc) (l : list doc)
  : list doc :=
  match l with
  | [] => [x]
  | y :: l' =>
      if sort_leb keys x y then x :: y :: l' else y :: sort_insert keys x l'
  end.

(** Documents with equal keys keep their input order. *)
Fixpoint run_sort (keys : list (string * Z)) (l : list doc) : list doc :=
  match l with
  | [] => []
  | x :: l' => sort_insert keys x (run_sort keys l')
  end.

(** ** [$lookup] and [$project] *)

(** The join condition: the local value, [null] when missing, against the
    foreign field; a local array joins through any of its elements. *)
Definition lookup_match (localField foreignField : string) (d f : doc) : bool :=
  match Doc.get_or_null localField d with
  | VArr l => existsb (λ x, field_eq x (Doc.get foreignField f)) l
  | v => field_eq v (Doc.get foreignField f)
  end.

Definition run_lookup (foreign : list doc)
    (localField foreignField as_ : string) (d : doc) : doc :=
  Doc.set as_
    (VArr (map VDoc (filter (λ f, lookup_match localField foreignField d f) foreign)))
    d.

Inductive projection :=
| PInclude              (* field: 1 *)
| PExpr (e : expr).     (* field: expression *)

Definition is_included (fields : list (string * projection)) (k : string) : bool :=
  String.eqb k "_id"
  || existsb (λ fp, match fp.2 with
                    | PInclude => String.eqb fp.1 k
                    | PExpr _ => false
                    end) fields.

Fixpoint add_computed `{Arithmetic} (fields : list (string * projection)) (d acc : doc)
  : outcome doc :=
  match fields with
  | [] => Return acc
  | (_, PInclude) :: rest => add_computed rest d acc
  | (f, PExpr e) :: rest =>
      obind (eval e d) (λ v,
        add_computed rest d
          (match v with Some x => Doc.set f x acc | None => acc end))
  end.

(** An inclusion projection keeps [_id] and the listed fields and adds
    the computed ones, all evaluated on the input document. *)
Definition run_project `{Arithmetic} (fields : list (string * projection)) (d : doc)
  : outcome doc :=
  add_computed fields d (filter (λ kv, is_included fields kv.1) d).

(** ** Pipelines *)

Inductive stage :=
| SMatch (q : query)
| SGroup (id : expr) (fields : list (string * accumulator))
| SSort (keys : list (string * Z))
| SLookup (from localField foreignField as_ : string)
| SProject (fields : list (string * projection)).

Definition run_stage `{Arithmetic} (w : world) (s : stage) (docs : list doc)
  : outcome (list doc) :=
  match s with
  | SMatch q => Return (filter (matches q) docs)
  | SGroup id fields => run_group id fields docs
  | SSort keys => Return (run_sort keys docs)
  | SLookup from localField foreignField as_ =>
      Return (map (run_lookup (c_docs (coll_of w from))
                     localField foreignField as_) docs)
  | SProject fields => omapM (run_project fields) docs
  end.

Fixpoint run_pipeline `{Arithmetic} (w : world) (pipeline : list stage) (docs : list doc)
  : outcome (list doc) :=
  match pipeline with
  | [] => Return docs
  | s :: rest => obind (run_stage w s docs) (run_pipeline w rest)
  end.

(** [db[name].aggregate(pipeline)]: reads, never writes. *)
Definition aggregate `{Arithmetic} (name : string) (pipeline : list stage) : M (list doc) :=
  λ w, (run_pipeline w pipeline (c_docs (coll_of w name)), w).

(** ** More driver operations *)

(** [list(db[name].find(filter))]: the selected documents in stored
    order. *)
Definition find_all (name : string) (q : query) : M (list doc) :=
  λ w, (Return (filter (matches q) (c_docs (coll_of w name))), w).

(** What [delete_one] hands back. *)
Record DeleteResult := { deleted_count : N }.

(** [db[name].delete_one(filter)]: the first selected document is removed;
    nothing happens when none is selected. *)
Definition delete_one (name : string) (q : query) : M DeleteResult :=
  λ w,
    let c := coll_of w name in
    match find_index q (c_docs c) with
    | None => (Return {| deleted_count := 0 |}, w)
    | Some i =>
        (Return {| deleted_count := 1 |},
         put_coll name (Coll (delete i (c_docs c)) (c_indexes c)) w)
    end.

(** [{"$addToSet": {f: {"$each": vs}}}]: every value of [vs] that the
    array does not hold yet is appended, in order; a missing field starts
    as the empty array; a field that is not an array is refused. *)
Definition add_each (vs : list value) (arr : list value) : list value :=
  fold_left (λ acc v, if existsb (value_eqb v) acc then acc else acc ++ [v])
            vs arr.

Definition add_to_set (f : string) (vs : list value) (d : doc) : outcome doc :=
  match Doc.get f d with
  | None => Return (Doc.set f (VArr (add_each vs [])) d)
  | Some (VArr l) => Return (Doc.set f (VArr (add_each vs l)) d)
  | Some _ => Raise (OperationFailure "Cannot apply $addToSet to non-array field")
  end.

(** [update_one] with any update operator: [change] is what the operator
    makes of the selected document.  With [$set] it is [update_one]. *)
Definition update_one_with (name : string) (q : query)
    (change : doc → outcome doc) : M pyval :=
  λ w,
    let c := coll_of w name in
    match find_index q (c_docs c) with
    | None => (Return (PyUpdateResult 0 0), w)
    | Some i =>
        match c_docs c !! i with
        | None => (Return (PyUpdateResult 0 0), w)
        | Some d =>
            match change d with
            | Raise e => (Raise e, w)
            | Return d' =>
                if negb (value_eqb (Doc.get_or_null "_id" d') (Doc.get_or_null "_id" d))
                then (Raise (OperationFailure "the (immutable) field '_id' was altered"), w)
                else
                  match first_violation (c_indexes c) (delete i (c_docs c)) d' with
                  | Some ix => (Raise (DuplicateKeyError (dup_message ix)), w)
                  | None =>
                      (Return (PyUpdateResult 1 (if value_eqb (VDoc d') (VDoc d) then 0 else 1)),
                       put_coll name (Coll (<[i := d']> (c_docs c)) (c_indexes c)) w)
                  end
            end
        end
    end.

(** * The module [eduhub_queries.py] *)

Module Eduhub.

(** ** Part 2: the generated documents

    The generator draws its values from [Faker] and [random]; here every
    drawn value is an argument, so a document is a function of the draws.
    [student["userId"]] is read with [Doc.get_or_null]: a generated user
    always carries the field. *)

Definition pad3 (n : N) : string :=
  if (n <? 10)%N then "00" +:+ digits n
  else if (n <? 100)%N then "0" +:+ digits n
  else digits n.

(** [f"{prefix}{i+1:03}"] *)
Definition ident (prefix : string) (i : nat) : string :=
  prefix +:+ pad3 (N.of_nat (i + 1)).

Definition user_doc (i : nat) (email firstName lastName role : string)
    (dateJoined : datetime) (bio avatar : string) (skills : list string) : doc :=
  [ ("userId", VStr (ident "u" i));
    ("email", VStr email);
    ("firstName", VStr firstName);
    ("lastName", VStr lastName);
    ("role", VStr role);
    ("dateJoined", VDate dateJoined);
    ("profile", VDoc [ ("bio", VStr bio);
                       ("avatar", VStr avatar);
                       ("skills", VArr (map VStr skills)) ]);
    ("isActive", VBool true) ].

Definition course_doc (i : nat) (title description : string) (instructor : doc)
    (category level : string) (duration price : Qc) (tags : list string)
    (createdAt updatedAt : datetime) (isPublished : bool) : doc :=
  [ ("courseId", VStr (ident "c" i));
    ("title", VStr title);
    ("description", VStr description);
    ("instructorId", Doc.get_or_null "userId" instructor);
    ("category", VStr category);
    ("level", VStr level);
    ("duration", VNum duration);
    ("price", VNum price);
    ("tags", VArr (map VStr tags));
    ("createdAt", VDate createdAt);
    ("updatedAt", VDate updatedAt);
    ("isPublished", VBool isPublished) ].

Definition enrollment_doc (i : nat) (student course : doc)
    (enrolledAt : datetime) (progress : Qc) (completed : bool) : doc :=
  [ ("enrollmentId", VStr (ident "e" i));
    ("studentId", Doc.get_or_null "userId" student);
    ("courseId", Doc.get_or_null "courseId" course);
    ("enrolledAt", VDate enrolledAt);
    ("progress", VNum progress);
    ("completed", VBool completed) ].

Definition lesson_doc (i : nat) (course : doc) (title content videoUrl : string)
    (duration : Qc) (order : Z) : doc :=
  [ ("lessonId", VStr (ident "l" i));
    ("courseId", Doc.get_or_null "courseId" course);
    ("title", VStr title);
    ("content", VStr content);
    ("videoUrl", VStr videoUrl);
    ("duration", VNum duration);
    ("order", num order) ].

Definition assignment_doc (i : nat) (course : doc) (title description : string)
    (dueDate : datetime) : doc :=
  [ ("assignmentId", VStr (ident "a" i));
    ("courseId", Doc.get_or_null "courseId" course);
    ("title", VStr title);
    ("description", VStr description);
    ("dueDate", VDate dueDate) ].

Definition submission_doc (i : nat) (assignment student : doc)
    (submittedAt : datetime) (content : string) (grade : Qc) : doc :=
  [ ("submissionId", VStr (ident "s" i));
    ("assignmentId", Doc.get_or_null "assignmentId" assignment);
    ("studentId", Doc.get_or_null "userId" student);
    ("submittedAt", VDate submittedAt);
    ("content", VStr content);
    ("grade", VNum grade) ].

(** [db.users.insert_many(users)] and its siblings: each list goes to the
    collection of its own name. *)
Definition populate
    (users courses enrollments lessons assignments submissions : list doc)
  : M unit :=
  insert_many "users" users ;;;
  insert_many "courses" courses ;;;
  insert_many "enrollments" enrollments ;;;
  insert_many "lessons" lessons ;;;
  insert_many "assignments" assignments ;;;
  insert_many "submissions" submissions ;;;
  ret tt.

(** ** Part 3: CRUD accessors *)

Definition add_student_user (user : doc) : M pyval :=
  insert_one "users" user.

Definition create_course (course : doc) : M pyval :=
  insert_one "courses" course.

Definition enroll_student (enrollment : doc) : M pyval :=
  insert_one "enrollments" enrollment.

Definition add_lesson_to_course (lesson : doc) : M pyval :=
  insert_one "lessons" lesson.

Definition update_user_profile (user_id : value) (update_fields : doc)
  : M pyval :=
  update_one "users" [("userId", CEq user_id)] update_fields.

Definition mark_course_published (course_id : value) : M pyval :=
  update_one "courses" [("courseId", CEq course_id)]
    [("isPublished", VBool true)].

Definition update_assignment_grade (submission_id : string) (grade : value)
  : M pyval :=
  oid <~ (λ w, (ObjectId submission_id, w)) ;;
  update_one "assignment_submissions" [("_id", CEq oid)] [("grade", grade)].

Definition soft_delete_user (user_id : value) : M pyval :=
  update_one "users" [("userId", CEq user_id)] [("isActive", VBool false)].

(** ** Part 4: the aggregation pipelines, in the order of the source *)

(** Count total enrollments per course *)
Definition total_enrollments_per_course `{Arithmetic} : M (list doc) :=
  aggregate "enrollments"
    [ SGroup (EField "courseId") [("totalEnrollments", ASum (ELit (num 1)))] ].

(** Calculate average course rating *)
Definition average_course_rating `{Arithmetic} : M (list doc) :=
  aggregate "courses"
    [ SMatch [("rating", CExists true)];
      SGroup (EField "courseId") [("avgRating", AAvg (EField "rating"))] ].

(** Average grade per student *)
Definition average_grade_per_student `{Arithmetic} : M (list doc) :=
  aggregate "submissions"
    [ SGroup (EField "studentId") [("averageGrade", AAvg (EField "grade"))] ].

(** Completion rate by course *)
Definition completion_rate_by_course `{Arithmetic} : M (list doc) :=
  aggregate "enrollments"
    [ SGroup (EField "courseId") [("avgProgress", AAvg (EField "progress"))] ].

(** Top-performing students *)
Definition top_performing_students `{Arithmetic} : M (list doc) :=
  aggregate "submissions"
    [ SGroup (EField "studentId") [("averageGrade", AAvg (EField "grade"))];
      SMatch [("averageGrade", CGte (num 90))];
      SSort [("averageGrade", (-1)%Z)] ].

(** Average course rating per instructor *)
Definition average_rating_per_instructor `{Arithmetic} : M (list doc) :=
  aggregate "courses"
    [ SMatch [("rating", CExists true)];
      SGroup (EField "instructorId") [("averageRating", AAvg (EField "rating"))] ].

(** Revenue generated per instructor *)
Definition revenue_per_instructor `{Arithmetic} : M (list doc) :=
  aggregate "courses"
    [ SLookup "enrollments" "courseId" "courseId" "enrolls";
      SProject [ ("instructorId", PInclude);
                 ("revenue", PExpr (EMultiply [ESize (EField "enrolls");
                                               EField "price"])) ];
      SGroup (EField "instructorId") [("totalRevenue", ASum (EField "revenue"))] ].

(** Monthly enrollment trends *)
Definition monthly_enrollment_trends `{Arithmetic} : M (list doc) :=
  aggregate "enrollments"
    [ SGroup (EDateToString "%Y-%m" (EField "enrollmentDate"))
             [("totalEnrollments", ASum (ELit (num 1)))];
      SSort [("_id", 1%Z)] ].

(** Student engagement metrics (average progress per course) *)
Definition student_engagement_metrics `{Arithmetic} : M (list doc) :=
  aggregate "enrollments"
    [ SGroup (EField "courseId") [("avgProgress", AAvg (EField "progress"))] ].

(** ** Part 5: indexes *)

Definition create_indexes : M pyval :=
  create_index "users" [("email", ASCENDING)] true ;;;
  create_index "courses" [("title", ASCENDING); ("category", ASCENDING)] false ;;;
  create_index "assignments" [("dueDate", ASCENDING)] false ;;;
  create_index "enrollments" [("studentId", ASCENDING); ("courseId", ASCENDING)] false ;;;
  ret PyNone.

(** ** Part 6: error handling *)

(** What [insert_with_error_handling] needs of its [collection] argument:
    an [insert_one] method.  [db.users] and the other collections of the
    database are such objects. *)
Record Collection := { insert_one_of : doc → M pyval }.

Definition db (name : string) : Collection :=
  {| insert_one_of := insert_one name |}.

(** The function has no [return]: after the [try] statement it falls off
    its end and hands back [None]. *)
Definition insert_with_error_handling (collection : Collection)
    (document : doc) : M pyval :=
  try_except
    (insert_one_of collection document ;;; ret tt)
    (λ e, print ("Insertion failed: " +:+ exn_message e)) ;;;
  ret PyNone.

(** ** The other accessors and pipelines of the module *)

(** Task 3.2: read operations *)
Definition get_active_students : M (list doc) :=
  find_all "users" [("role", CEq (VStr "student")); ("isActive", CEq (VBool true))].

Definition get_course_with_instructor `{Arithmetic} (course_id : value)
  : M (list doc) :=
  aggregate "courses"
    [ SMatch [("courseId", CEq course_id)];
      SLookup "users" "instructorId" "userId" "instructor" ].

Definition get_courses_by_category (category : value) : M (list doc) :=
  find_all "courses" [("category", CEq category)].

Definition get_students_in_course `{Arithmetic} (course_id : value)
  : M (list doc) :=
  aggregate "enrollments"
    [ SMatch [("courseId", CEq course_id)];
      SLookup "users" "studentId" "userId" "student" ].

(** Task 3.3 *)
Definition add_tags_to_course (course_id : value) (tags : list value)
  : M pyval :=
  update_one_with "courses" [("courseId", CEq course_id)]
    (add_to_set "tags" tags).

(** Task 3.4: delete operations *)
Definition delete_enrollment (enrollment_id : string) : M DeleteResult :=
  oid <~ (λ w, (ObjectId enrollment_id, w)) ;;
  delete_one "enrollments" [("_id", CEq oid)].

Definition remove_lesson (lesson_id : string) : M DeleteResult :=
  oid <~ (λ w, (ObjectId lesson_id, w)) ;;
  delete_one "lessons" [("_id", CEq oid)].

(** Task 4.1.  The two bounds on [price] stand in one operator document
    in the source; each must hold, as two conditions do. *)
Definition find_courses_in_price_range : M (list doc) :=
  find_all "courses" [("price", CGte (num 50)); ("price", CLte (num 200))].

(** Group by course category *)
Definition courses_per_category `{Arithmetic} : M (list doc) :=
  aggregate "courses"
    [ SGroup (EField "category") [("totalCourses", ASum (ELit (num 1)))] ].

(** Total students taught by each instructor *)
Definition total_students_per_instructor `{Arithmetic} : M (list doc) :=
  aggregate "courses"
    [ SLookup "enrollments" "courseId" "courseId" "course_enrollments";
      SGroup (EField "instructorId")
             [("totalStudents", ASum (ESize (EField "course_enrollments")))] ].

End Eduhub.

(** * Notions used to state the properties *)

(** The index [ix] is declared on a collection when it is the one that a
    declaration of the same name or keys meets there. *)
Definition declared (name : string) (ix : index) (w : world) : Prop :=
  find (clashes ix) (c_indexes (coll_of w name)) = Some ix.

(** The unique indexes of a collection hold on its documents; the server
    keeps this true of every collection. *)
Definition coll_sound (c : coll) : bool :=
  forallb (λ ix, negb (ix_unique ix && has_duplicate_key ix (c_docs c)))
          (c_indexes c).

(** Two stored documents at different places carry the same value of a
    field (a missing value counts as [null]). *)
Definition shares_value (f : string) (docs : list doc) : Prop :=
  ∃ i j a b, i ≠ j ∧ docs !! i = Some a ∧ docs !! j = Some b
    ∧ Doc.get_or_null f a = Doc.get_or_null f b.

(** The group of key [k] in the output of a [$group] stage. *)
Definition find_group (k : value) (res : list doc) : option doc :=
  find (λ d, value_eqb (Doc.get_or_null "_id" d) k) res.

(** The documents whose field [f] is [k]; a missing field is [null]. *)
Definition with_key (f : string) (k : value) (docs : list doc) : list doc :=
  filter (λ d, value_eqb (Doc.get_or_null f d) k) docs.

Definition number_of (v : option value) : option Qc :=
  match v with
  | Some (VNum q) => Some q
  | _ => None
  end.

(** The numeric values of field [f] over a list of documents. *)
Definition numbers (f : string) (docs : list doc) : list Qc :=
  omap number_of (map (Doc.get f) docs).

(** The mean as the server computes it: the total of the numbers divided
    by how many they are; a list without numbers has none. *)
Definition mean `{Arithmetic} (l : list Qc) : option Qc :=
  match l with
  | [] => None
  | _ => Some (fdiv (total l) (N.of_nat (length l)))
  end.

Definition mean_value `{Arithmetic} (l : list Qc) : value :=
  match mean l with
  | Some a => VNum a
  | None => VNull
  end.

(** The accumulator states of key [k] in a group table. *)
Definition table_get (k : value) (t : table) : option (list acc_state) :=
  snd <$> find (λ g, value_eqb g.1 k) t.

(** The documents of a collection that carry field [f]. *)
Definition carrying (f : string) (docs : list doc) : list doc :=
  filter (λ d, Doc.has f d) docs.

(** A count as a BSON number. *)
Definition count (n : nat) : value := num (Z.of_nat n).



(** The enrollments that the join of the revenue query attaches to a
    course: those whose [courseId] is the one of the course. *)
Definition enrolled_in (w : world) (c : doc) : list doc :=
  filter (λ e, lookup_match "courseId" "courseId" c e)
         (c_docs (coll_of w "enrollments")).

Definition Qc_of_nat (n : nat) : Qc := Q2Qc (inject_Z (Z.of_nat n)).

Definition is_array (v : value) : bool :=
  match v with VArr _ => true | _ => false end.








(** An enrollment as the generator left it in the store: the generated
    document, with the [_id] that the driver put in front. *)
Definition stored_enrollment (d : doc) : Prop :=
  ∃ oid i student course enrolledAt progress completed,
    d = ("_id", oid)
        :: Eduhub.enrollment_doc i student course enrolledAt progress completed.

(** * Sample data *)

Module Sample.
Import Eduhub.

Definition empty : world := World ∅ 0 [].

Definition mid (month : N) : datetime := DateTime 2024 month 15 10 0 0.

(** A small campus, generated the way the module generates its data: one
    instructor, three students, two courses of which only the first has
    enrollments, three enrollments in three months, one lesson, one
    assignment and five graded submissions. *)
Definition ada : doc :=
  user_doc 0 "ada@eduhub.test" "Ada" "Byron" "instructor" (mid 1)
    "Teaches." "http://img/0" ["Python"].

Definition bob : doc :=
  user_doc 1 "bob@eduhub.test" "Bob" "Moss" "student" (mid 1)
    "Learns." "http://img/1" ["SQL"].

Definition cyd : doc :=
  user_doc 2 "cyd@eduhub.test" "Cyd" "Lane" "student" (mid 2)
    "Learns." "http://img/2" ["MongoDB"].

Definition dee : doc :=
  user_doc 3 "dee@eduhub.test" "Dee" "Hart" "student" (mid 2)
    "Learns." "http://img/3" ["Python"; "SQL"].

Definition algebra : doc :=
  course_doc 0 "Linear algebra" "Vectors." ada "Data Science" "beginner"
    (Q2Qc 12) (Q2Qc 100) ["Python"; "Cloud"] (mid 3) (mid 3) true.

Definition botany : doc :=
  course_doc 1 "Field botany" "Plants." ada "Design" "advanced"
    (Q2Qc 20) (Q2Qc 50) ["UX"; "Cloud"] (mid 3) (mid 3) false.

Definition enrollments : list doc :=
  [ enrollment_doc 0 bob algebra (mid 1) (Q2Qc 40) false;
    enrollment_doc 1 cyd algebra (mid 2) (Q2Qc 60) true;
    enrollment_doc 2 dee algebra (mid 3) (Q2Qc 80) false ].

Definition lesson : doc :=
  lesson_doc 0 algebra "Vectors" "Arrows." "http://video/0" (Q2Qc 12) 1.

Definition quiz : doc :=
  assignment_doc 0 algebra "Quiz" "Ten questions." (mid 4).

(** Bob averages exactly 90, Cyd 89.5 and Dee 100. *)
Definition submissions : list doc :=
  [ submission_doc 0 quiz bob (mid 3) "first" (Q2Qc 85);
    submission_doc 1 quiz bob (mid 3) "second" (Q2Qc 95);
    submission_doc 2 quiz cyd (mid 3) "first" (Q2Qc 95);
    submission_doc 3 quiz cyd (mid 3) "second" (Q2Qc 84);
    submission_doc 4 quiz dee (mid 3) "only" (Q2Qc 100) ].

Definition campus : world :=
  (populate [ada; bob; cyd; dee] [algebra; botany] enrollments [lesson] [quiz]
     submissions empty).2.

(** The period of an enrollment, read from the field the generator wrote. *)
Definition month_of (e : doc) : option string :=
  match Doc.get "enrolledAt" e with
  | Some (VDate t) => format_date "%Y-%m" t
  | _ => None
  end.


(** Two users registered under one email, before any index is declared. *)
Definition twins : world :=
  (insert_many "users"
     [ ada;
       user_doc 1 "ada@eduhub.test" "Ada" "Other" "student" (mid 2)
         "Same address." "http://img/9" [] ] empty).2.



(** A stored number as Python writes it: the double nearest to a decimal
    fraction. *)
Definition float (n : Z) (d : positive) : Qc := round64 (Q2Qc (Qmake n d)).

(** One student with the grades 85.91, 99.46 and 84.63. *)
Definition graded : world :=
  (insert_many "submissions"
     [ [("studentId", VStr "u001"); ("grade", VNum (float 8591 100))];
       [("studentId", VStr "u001"); ("grade", VNum (float 9946 100))];
       [("studentId", VStr "u001"); ("grade", VNum (float 8463 100))] ]
     empty).2.

(** A course document that carries a rating. *)
Definition rated (c : doc) (stars : Z) : doc := c ++ [("rating", num stars)].

End Sample.

(** The reading of the per-course count that reports every course: each
    stored course has a group, holding the number of enrollments whose
    [courseId] is the one of the course, zero included. *)
Definition reports_every_course `{Arithmetic} (w : world) : Prop :=
  ∃ res, (Eduhub.total_enrollments_per_course w).1 = Return res
    ∧ ∀ c, c ∈ c_docs (coll_of w "courses") →
        ∃ g, find_group (Doc.get_or_null "courseId" c) res = Some g
          ∧ Doc.get "totalEnrollments" g
            = Some (count (length (with_key "courseId"
                                     (Doc.get_or_null "courseId" c)
                                     (c_docs (coll_of w "enrollments"))))).


(** * Notions used by the further properties *)

(** The filter of [get_active_students]. *)
Definition active_student (d : doc) : bool :=
  matches [("role", CEq (VStr "student")); ("isActive", CEq (VBool true))] d.

(** The documents counted so far in a group of a table with one [$sum]
    of 1, and in the whole table. *)
Definition running_count (g : value * list acc_state) : option nat :=
  match g.2 with
  | [StSum fed] =>
      if forallb (Qc_eqb (Q2Qc 1)) fed then Some (length fed) else None
  | _ => None
  end.

Definition count_states (t : table) : nat :=
  foldr Nat.add 0 (omap running_count t).

(** A document with the result of a join put in field [as_]: every other
    field as in [d], and [as_] holding the foreign documents that the
    join condition selects for [d], in stored order. *)
Definition joined_to (foreign : list doc) (localField foreignField as_ : string)
    (d d' : doc) : Prop :=
  (∀ f, f ≠ as_ → Doc.get f d' = Doc.get f d)
  ∧ Doc.get as_ d'
    = Some (VArr (map VDoc
                    (filter (λ x, lookup_match localField foreignField d x)
                            foreign))).

(** The course of a joined course document of the students-per-instructor
    query: the number of enrollments joined in. *)
Definition joined_size (as_ : string) (d : doc) : option value :=
  match Doc.get as_ d with
  | Some (VArr l) => Some (num (Z.of_nat (length l)))
  | _ => None
  end.

(** Between two worlds nothing but index declarations changed: every
    collection holds the same documents, its indexes are the old ones
    followed by new ones, and the ObjectId source and the output are the
    same. *)
Definition only_indexes_added (w w' : world) : Prop :=
  next_oid w' = next_oid w ∧ stdout w' = stdout w
  ∧ ∀ name,
      c_docs (coll_of w' name) = c_docs (coll_of w name)
      ∧ ∃ added,
          c_indexes (coll_of w' name) = c_indexes (coll_of w name) ++ added.

(** Reading a decimal numeral back. *)
Definition decode (s : string) : option N :=
  N.of_uint <$> NilEmpty.uint_of_string s.

(** The documents of a list as the driver sends them when none carries an
    [_id]: each with a fresh ObjectId in front, counted from [start]. *)
Fixpoint stamp (start : N) (docs : list doc) : list doc :=
  match docs with
  | [] => []
  | d :: rest => (("_id", VOid start) :: d) :: stamp (start + 1) rest
  end.

(** Every stored document carries an ObjectId handed out before [n]. *)
Definition ids_below (n : N) (stored : list doc) : Prop :=
  ∀ s, s ∈ stored → ∃ k, Doc.get_or_null "_id" s = VOid k ∧ (k < n)%N.

(** The six collections the generator fills. *)
Definition generated_collections : list string :=
  ["users"; "courses"; "enrollments"; "lessons"; "assignments"; "submissions"].

Definition count_docs (docs : list doc) : N := N.of_nat (length docs).

(** Documents with the given ObjectIds put in front, one each. *)
Definition with_oids (ids : list N) (docs : list doc) : list doc :=
  zip_with (λ i d, ("_id", VOid i) :: d) ids docs.

(** Collection [name] holds exactly [docs], in order, each with the
    ObjectId at its place in [ids] in front, under the index on [_id]
    alone. *)
Definition holds_stamped (w : world) (name : string) (ids : list N)
    (docs : list doc) : Prop :=
  length ids = length docs
  ∧ coll_of w name = Coll (with_oids ids docs) [id_index].

Definition oid_range (start : N) (n : nat) : list N :=
  map (λ i, (start + N.of_nat i)%N) (seq 0 n).

(** A field name that [$set] takes as the name of a top-level field: not
    empty, without a dot, and not starting with a dollar sign. *)
Fixpoint has_dot (s : string) : bool :=
  match s with
  | EmptyString => false
  | String c s' => Ascii.eqb c "." || has_dot s'
  end.

Definition plain_name (f : string) : bool :=
  match f with
  | EmptyString => false
  | String c _ => negb (Ascii.eqb c "$") && negb (has_dot f)
  end.
(** Induction over values that reaches inside arrays and documents. *)
Section ValueInd.
Variable P : value → Prop.
Hypothesis Hnull : P VNull.
Hypothesis Hbool : ∀ b, P (VBool b).
Hypothesis Hnum : ∀ q, P (VNum q).
Hypothesis Hstr : ∀ s, P (VStr s).
Hypothesis Hdate : ∀ t, P (VDate t).
Hypothesis Hoid : ∀ o, P (VOid o).
Hypothesis Harr : ∀ l, Forall P l → P (VArr l).
Hypothesis Hdoc : ∀ d, Forall (λ kv, P kv.2) d → P (VDoc d).

Fixpoint value_deep_ind (v : value) : P v :=
  match v with
  | VNull => Hnull
  | VBool b => Hbool b
  | VNum q => Hnum q
  | VStr s => Hstr s
  | VDate t => Hdate t
  | VOid o => Hoid o
  | VArr l =>
      Harr l ((fix go (l : list value) : Forall P l :=
                 match l with
                 | [] => Forall_nil_2 P
                 | x :: l' => Forall_cons_2 P x l' (value_deep_ind x) (go l')
                 end) l)
  | VDoc d =>
      Hdoc d ((fix go (d : doc) : Forall (λ kv, P kv.2) d :=
                 match d with
                 | [] => Forall_nil_2 _
                 | kv :: d' =>
                     Forall_cons_2 (λ kv, P kv.2) kv d'
                       (value_deep_ind kv.2) (go d')
                 end) d)
  end.
End ValueInd.

Lemma datetime_eqb_eq a b : datetime_eqb a b = true ↔ a = b.
Proof.
  destruct a, b; unfold datetime_eqb; simpl.
  rewrite !andb_true_iff, !N.eqb_eq. split.
  - intros [[[[[-> ->] ->] ->] ->] ->]. reflexivity.
  - intros [= -> -> -> -> -> ->]. repeat split.
Qed.

Lemma Qc_eqb_eq a b : Qc_eqb a b = true ↔ a = b.
Proof.
  unfold Qc_eqb. rewrite Qeq_bool_iff. split.
  - apply Qc_is_canon.
  - intros ->. reflexivity.
Qed.

Lemma value_eqb_eq a b : value_eqb a b = true ↔ a = b.
Proof.
  revert b. induction a as [| | | | | |l IH|d IH] using value_deep_ind;
    intros [| | | | | |l2|d2]; simpl; try (split; [discriminate|congruence]).
  - tauto.
  - rewrite Bool.eqb_true_iff. split; congruence.
  - rewrite Qc_eqb_eq. split; congruence.
  - rewrite String.eqb_eq. split; congruence.
  - rewrite datetime_eqb_eq. split; congruence.
  - rewrite N.eqb_eq. split; congruence.
  - revert l2. induction IH as [|x l Hx _ IHl]; intros [|y l2];
      try (split; [discriminate|congruence]); [tauto|].
    rewrite andb_true_iff, Hx, IHl. split.
    + intros [-> [= ->]]. reflexivity.
    + intros [= -> ->]. tauto.
  - revert d2. induction IH as [|[k x] d Hx _ IHd]; intros [|[k2 y] d2];
      try (split; [discriminate|congruence]); [tauto|].
    simpl in Hx. rewrite !andb_true_iff, String.eqb_eq, Hx, IHd. split.
    + intros [[-> ->] [= ->]]. reflexivity.
    + intros [= -> -> ->]. tauto.
Qed.

Lemma value_eqb_refl a : value_eqb a a = true.
Proof. apply value_eqb_eq. reflexivity. Qed.

Lemma value_eqb_neq a b : value_eqb a b = false ↔ a ≠ b.
Proof.
  rewrite <- value_eqb_eq. destruct (value_eqb a b); split; congruence.
Qed.

Lemma value_eqb_sym a b : value_eqb a b = value_eqb b a.
Proof.
  destruct (value_eqb a b) eqn:E.
  - apply value_eqb_eq in E as ->. symmetry. apply value_eqb_refl.
  - symmetry. apply value_eqb_neq. apply value_eqb_neq in E. congruence.
Qed.

#[global] Instance value_eq_dec : EqDecision value.
Proof.
  intros a b. destruct (value_eqb a b) eqn:E.
  - left. apply value_eqb_eq, E.
  - right. apply value_eqb_neq, E.
Defined.

(** * Properties *)

(** ** Documents *)

Lemma get_set_eq f v d : Doc.get f (Doc.set f v d) = Some v.
Proof.
  induction d as [|[k x] d IH]; simpl.
  - rewrite String.eqb_refl. reflexivity.
  - destruct (String.eqb k f) eqn:E; simpl; rewrite E; auto.
Qed.

Lemma get_set_ne f g v d : f ≠ g → Doc.get g (Doc.set f v d) = Doc.get g d.
Proof.
  intros Hne. induction d as [|[k x] d IH]; simpl.
  - apply String.eqb_neq in Hne. rewrite Hne. reflexivity.
  - destruct (String.eqb k f) eqn:E; simpl.
    + apply String.eqb_eq in E as ->.
      apply String.eqb_neq in Hne. rewrite !Hne. reflexivity.
    + rewrite IH. reflexivity.
Qed.

Lemma get_or_null_set_ne f g v d :
  f ≠ g → Doc.get_or_null g (Doc.set f v d) = Doc.get_or_null g d.
Proof. intros H. unfold Doc.get_or_null. rewrite get_set_ne; auto. Qed.


Lemma get_filter_none (p : string → bool) f d :
  p f = false → Doc.get f (filter (λ kv, p kv.1) d) = None.
Proof.
  intros Hp. induction d as [|[k x] d IH]; simpl; [reflexivity|].
  rewrite filter_cons. destruct (decide _) as [Hk|Hk]; simpl in *; [|exact IH].
  destruct (String.eqb k f) eqn:E; [|exact IH].
  apply String.eqb_eq in E as ->. rewrite Hp in Hk. destruct Hk.
Qed.

(** ** Statements *)

Lemma bind_return {A B} (c : M A) (k : A → M B) w a w' :
  c w = (Return a, w') → bind c k w = k a w'.
Proof. unfold bind. intros ->. reflexivity. Qed.

Lemma bind_raise {A B} (c : M A) (k : A → M B) w e w' :
  c w = (Raise e, w') → bind c k w = (Raise e, w').
Proof. unfold bind. intros ->. reflexivity. Qed.

Lemma coll_of_put_eq name c w : coll_of (put_coll name c w) name = c.
Proof. unfold coll_of, put_coll. simpl. rewrite lookup_insert_eq. reflexivity. Qed.

Lemma coll_of_put_ne name other c w :
  name ≠ other → coll_of (put_coll name c w) other = coll_of w other.
Proof.
  intros H. unfold coll_of, put_coll. simpl.
  rewrite lookup_insert_ne by exact H. reflexivity.
Qed.

Lemma find_index_Some q docs i :
  find_index q docs = Some i →
  ∃ d, docs !! i = Some d ∧ matches q d = true.
Proof.
  revert i. induction docs as [|d docs IH]; intros i; simpl; [discriminate|].
  destruct (matches q d) eqn:E.
  - intros [= <-]. eauto.
  - destruct (find_index q docs) as [j|]; simpl; [|discriminate].
    intros [= <-]. simpl. apply IH. reflexivity.
Qed.

Lemma find_index_None q docs :
  find_index q docs = None ↔ ∀ d, d ∈ docs → matches q d = false.
Proof.
  induction docs as [|d docs IH]; simpl.
  - split; [intros _ d Hd; inversion Hd | reflexivity].
  - destruct (matches q d) eqn:E.
    + split; [discriminate|]. intros H. rewrite H in E by left. discriminate.
    + destruct (find_index q docs); simpl.
      * split; [discriminate|]. intros H.
        assert (Some n = None) as [=]. apply IH. intros d' Hd'. apply H. right. exact Hd'.
      * split; [|reflexivity]. intros _ d' Hd'.
        apply elem_of_cons in Hd' as [->|Hd']; [exact E|].
        destruct IH as [IH _]. apply IH; auto.
Qed.

(** ** The update accessors *)

Section Updates.
Import Eduhub.

(** What [update_one] with a [$set] can do to the world: nothing, or the
    rewrite of one selected document of the named collection. *)
Lemma update_one_cases name q fields w :
  (update_one name q fields w).2 = w ∨
  ∃ i d, c_docs (coll_of w name) !! i = Some d ∧ matches q d = true ∧
    (update_one name q fields w).2 =
      put_coll name (Coll (<[i := apply_set fields d]> (c_docs (coll_of w name)))
                          (c_indexes (coll_of w name))) w.
Proof.
  unfold update_one.
  destruct (find_index q (c_docs (coll_of w name))) as [i|] eqn:Hi; [|left; reflexivity].
  destruct (find_index_Some _ _ _ Hi) as (d & Hd & Hm). rewrite Hd.
  destruct (negb _); [left; reflexivity|].
  destruct (first_violation _ _ _); [left; reflexivity|].
  right. exists i, d. auto.
Qed.

Lemma update_one_other name q fields w other :
  name ≠ other →
  colls (update_one name q fields w).2 !! other = colls w !! other.
Proof.
  intros Hne. destruct (update_one_cases name q fields w) as [->|(i & d & _ & _ & ->)].
  - reflexivity.
  - simpl. apply lookup_insert_ne, Hne.
Qed.

Lemma update_one_no_match name q fields w :
  (∀ d, d ∈ c_docs (coll_of w name) → matches q d = false) →
  update_one name q fields w = (Return (PyUpdateResult 0 0), w).
Proof.
  intros H. apply find_index_None in H. unfold update_one. rewrite H. reflexivity.
Qed.

(** C10.  [soft_delete_user] leaves every collection but [users] as it
    was, and the indexes of [users], the ObjectId source and the output
    too.  The users stay in their places, none is removed; at most one
    position is rewritten, every field of every user other than [isActive]
    reads as before, and a user that did change is one selected by the
    identifier and now has [isActive] false.  When the identifier selects
    no user the world is unchanged. *)
Theorem soft_delete_user_frame (user_id : value) (w : world) :
  let w' := (soft_delete_user user_id w).2 in
  let users := c_docs (coll_of w "users") in
  let users' := c_docs (coll_of w' "users") in
  (∀ name, name ≠ "users" → colls w' !! name = colls w !! name)
  ∧ next_oid w' = next_oid w ∧ stdout w' = stdout w
  ∧ c_indexes (coll_of w' "users") = c_indexes (coll_of w "users")
  ∧ length users' = length users
  ∧ (∃ i, ∀ j, j ≠ i → users' !! j = users !! j)
  ∧ (∀ j u, users !! j = Some u →
       ∃ u', users' !! j = Some u'
         ∧ (∀ f, f ≠ "isActive" → Doc.get f u' = Doc.get f u)
         ∧ (u' = u ∨ (field_eq user_id (Doc.get "userId" u) = true
                      ∧ Doc.get "isActive" u' = Some (VBool false))))
  ∧ ((∀ u, u ∈ users → field_eq user_id (Doc.get "userId" u) = false) → w' = w).
Proof.
  intros w' users users'. subst w' users users'. unfold soft_delete_user.
  destruct (update_one_cases "users" [("userId", CEq user_id)]
              [("isActive", VBool false)] w) as [->|(i & d & Hd & Hm & ->)].
  - repeat split; auto.
    + exists 0. auto.
    + intros j u Hu. exists u. auto.
  - rewrite coll_of_put_eq. simpl c_docs. simpl c_indexes.
    unfold apply_set. simpl fold_left.
    unfold matches in Hm. simpl in Hm. rewrite andb_true_r in Hm.
    repeat split; auto.
    + intros name Hne. simpl. apply lookup_insert_ne. congruence.
    + apply length_insert.
    + exists i. intros j Hj. apply list_lookup_insert_ne. congruence.
    + intros j u Hu. destruct (decide (j = i)) as [->|Hj].
      * rewrite Hd in Hu. injection Hu as <-.
        exists (Doc.set "isActive" (VBool false) d). repeat split.
        -- apply list_lookup_insert_eq. eapply lookup_lt_Some, Hd.
        -- intros f Hf. apply get_set_ne. congruence.
        -- right. split; [exact Hm | apply get_set_eq].
      * exists u. rewrite list_lookup_insert_ne by congruence. auto.
    + intros Hnone. apply list_elem_of_lookup_2 in Hd.
      rewrite (Hnone d Hd) in Hm. discriminate.
Qed.

Lemma update_assignment_grade_other (submission_id : string) (grade : value)
    (w : world) (name : string) :
  name ≠ "assignment_submissions" →
  colls (update_assignment_grade submission_id grade w).2 !! name
  = colls w !! name.
Proof.
  intros Hne. unfold update_assignment_grade, bind.
  destruct (ObjectId submission_id) as [oid|e]; [|reflexivity].
  apply update_one_other. congruence.
Qed.

(** C2.  The grade accessor addresses the collection
    [assignment_submissions]; the submissions were stored in
    [submissions], and that collection is the same before and after the
    call, whatever the identifier and the grade.  On the sample campus the
    first stored submission has [_id] 11 and grade 85; the call with that
    identifier and grade 100 selects nothing and leaves the world as it
    was. *)
Theorem update_assignment_grade_misses_submissions :
  (∀ submission_id grade w,
     colls (update_assignment_grade submission_id grade w).2 !! "submissions"
     = colls w !! "submissions")
  ∧ ∃ s, c_docs (coll_of Sample.campus "submissions") !! 0 = Some s
      ∧ Doc.get "_id" s = Some (VOid 11)
      ∧ Doc.get "grade" s = Some (num 85)
      ∧ ObjectId "00000000000000000000000b" = Return (VOid 11)
      ∧ update_assignment_grade "00000000000000000000000b" (num 100)
          Sample.campus
        = (Return (PyUpdateResult 0 0), Sample.campus).
Proof.
  split.
  - intros submission_id grade w.
    apply update_assignment_grade_other. discriminate.
  - eexists. split; [vm_compute; reflexivity|].
    repeat split; vm_compute; reflexivity.
Qed.

End Updates.

(** ** The error-handling wrapper *)

Section ErrorHandling.
Import Eduhub.

(** C8.  Whatever the collection object and the document, the wrapper
    returns [None] and never raises.  When the insert returned, the world
    is the one the insert left; when the insert raised [e], the world is
    the one the insert left with the line ["Insertion failed: e"] printed.
    The returned value is the same in both cases. *)
Theorem insert_with_error_handling_swallows
    (collection : Collection) (document : doc) (w : world) :
  (insert_with_error_handling collection document w).1 = Return PyNone
  ∧ match insert_one_of collection document w with
    | (Return _, w1) =>
        (insert_with_error_handling collection document w).2 = w1
    | (Raise e, w1) =>
        (insert_with_error_handling collection document w).2
        = World (colls w1) (next_oid w1)
            (stdout w1 ++ ["Insertion failed: " +:+ exn_message e])
    end.
Proof.
  unfold insert_with_error_handling, try_except, bind, ret, print.
  destruct (insert_one_of collection document w) as [[r|e] w1]; simpl; auto.
Qed.

End ErrorHandling.

(** ** Index declarations *)

Section Indexes.
Import Eduhub.

Lemma same_index_eq a b : same_index a b = true ↔ a = b.
Proof.
  destruct a as [n1 k1 u1], b as [n2 k2 u2]. unfold same_index, keys_eqb. simpl.
  rewrite !andb_true_iff, String.eqb_eq, bool_decide_eq_true, Bool.eqb_true_iff.
  split.
  - intros [[-> ->] ->]. reflexivity.
  - intros [= -> -> ->]. auto.
Qed.

Lemma clashes_refl ix : clashes ix ix = true.
Proof. unfold clashes. rewrite String.eqb_refl. reflexivity. Qed.

Lemma find_app_None {A} (p : A → bool) l x :
  find p l = None → p x = true → find p (l ++ [x]) = Some x.
Proof.
  intros Hl Hx. induction l as [|y l IH]; simpl in *.
  - rewrite Hx. reflexivity.
  - destruct (p y); [discriminate|]. auto.
Qed.

Lemma find_witness {A} (p : A → bool) l x :
  In x l → p x = true → ∃ y, find p l = Some y.
Proof.
  intros Hin Hx. destruct (find p l) as [y|] eqn:E; [eauto|].
  rewrite (find_none _ _ E x Hin) in Hx. discriminate.
Qed.

Lemma has_duplicate_key_keys a b docs :
  ix_keys a = ix_keys b → has_duplicate_key a docs = has_duplicate_key b docs.
Proof.
  intros H. induction docs as [|d docs IH]; simpl; [reflexivity|].
  unfold index_key. rewrite H, IH. reflexivity.
Qed.

Lemma key_eqb_eq a b : key_eqb a b = true ↔ a = b.
Proof.
  unfold key_eqb. rewrite value_eqb_eq. split; congruence.
Qed.

Lemma has_duplicate_key_lt ix docs i j a b :
  i < j → docs !! i = Some a → docs !! j = Some b →
  index_key ix a = index_key ix b → has_duplicate_key ix docs = true.
Proof.
  revert i j. induction docs as [|d docs IH]; intros i j Hij Ha Hb Hk;
    [discriminate|].
  simpl. apply orb_true_iff. destruct i as [|i].
  - left. simpl in Ha. injection Ha as ->.
    destruct j as [|j]; [lia|]. simpl in Hb.
    apply existsb_exists. exists b. split.
    + apply list_elem_of_In. eapply list_elem_of_lookup_2, Hb.
    + apply key_eqb_eq. congruence.
  - right. destruct j as [|j]; [lia|]. simpl in Ha, Hb.
    apply (IH i j); auto. lia.
Qed.

Lemma shares_value_duplicate f z u name docs :
  shares_value f docs →
  has_duplicate_key (Index name [(f, z)] u) docs = true.
Proof.
  intros (i & j & a & b & Hij & Ha & Hb & Hv).
  destruct (decide (i < j)).
  - apply (has_duplicate_key_lt _ docs i j a b); auto.
    unfold index_key. simpl. congruence.
  - apply (has_duplicate_key_lt _ docs j i b a); auto; [lia|].
    unfold index_key. simpl. congruence.
Qed.

(** A declaration that is already in place changes nothing. *)
Lemma create_index_declared name keys unique w :
  declared name (Index (gen_index_name keys) keys unique) w →
  create_index name keys unique w = (Return (PyStr (gen_index_name keys)), w).
Proof.
  unfold declared, create_index. cbv zeta. intros ->.
  assert (same_index (Index (gen_index_name keys) keys unique)
            (Index (gen_index_name keys) keys unique) = true) as ->
    by (apply same_index_eq; reflexivity).
  reflexivity.
Qed.

(** A declaration that succeeds is in place afterwards, and touches
    neither the documents nor any other collection. *)
Lemma create_index_success name keys unique w r w' :
  create_index name keys unique w = (Return r, w') →
  declared name (Index (gen_index_name keys) keys unique) w'
  ∧ c_docs (coll_of w' name) = c_docs (coll_of w name)
  ∧ ∀ other, name ≠ other → coll_of w' other = coll_of w other.
Proof.
  unfold create_index. cbv zeta.
  set (ix := Index (gen_index_name keys) keys unique).
  destruct (find (clashes ix) (c_indexes (coll_of w name))) as [old|] eqn:Hf.
  - destruct (same_index ix old) eqn:Hs; [|discriminate].
    intros [= _ <-]. apply same_index_eq in Hs as <-. unfold declared. auto.
  - destruct (unique && has_duplicate_key ix (c_docs (coll_of w name)));
      [discriminate|].
    intros [= _ <-]. unfold declared. rewrite coll_of_put_eq. simpl.
    split; [|split].
    + apply find_app_None; [exact Hf | apply clashes_refl].
    + reflexivity.
    + intros other Hne. apply coll_of_put_ne, Hne.
Qed.

Lemma declared_frame name ix w w' :
  coll_of w' name = coll_of w name → declared name ix w → declared name ix w'.
Proof. unfold declared. intros ->. auto. Qed.

(** A new unique index is refused on a sound collection that holds a
    duplicate, and nothing is written. *)
Lemma create_index_duplicate name keys w :
  coll_sound (coll_of w name) = true →
  has_duplicate_key (Index (gen_index_name keys) keys true)
    (c_docs (coll_of w name)) = true →
  ∃ e, create_index name keys true w = (Raise e, w).
Proof.
  intros Hsound Hdup. unfold create_index. cbv zeta.
  set (ix := Index (gen_index_name keys) keys true) in *.
  destruct (find (clashes ix) (c_indexes (coll_of w name))) as [old|] eqn:Hf.
  - destruct (same_index ix old) eqn:Hs; [|eauto].
    apply same_index_eq in Hs as <-. apply find_some in Hf as [Hin _].
    unfold coll_sound in Hsound. rewrite forallb_forall in Hsound.
    specialize (Hsound ix Hin). rewrite Hdup in Hsound. discriminate.
  - rewrite Hdup. simpl. eauto.
Qed.

(** With a unique index on [email] in place, a document whose email is
    that of a stored one is refused. *)
Lemma insert_one_duplicate_email name z user stored w :
  In (Index name [("email", z)] true) (c_indexes (coll_of w "users")) →
  stored ∈ c_docs (coll_of w "users") →
  Doc.get_or_null "email" stored = Doc.get_or_null "email" user →
  ∃ msg w', insert_one "users" user w = (Raise (DuplicateKeyError msg), w')
            ∧ colls w' = colls w.
Proof.
  intros Hix Hst Hmail. unfold insert_one, bind, with_id, store_doc.
  set (ix := Index name [("email", z)] true) in *.
  assert (∀ d nxt out, Doc.get_or_null "email" d = Doc.get_or_null "email" user →
          ∃ ix', first_violation
                   (c_indexes (coll_of (World (colls w) nxt out) "users"))
                   (c_docs (coll_of (World (colls w) nxt out) "users")) d
                 = Some ix') as Hviol.
  { intros d nxt out Hd. apply (find_witness _ _ ix); [exact Hix|].
    unfold violates. simpl. apply existsb_exists. exists stored. split.
    - apply list_elem_of_In, Hst.
    - apply key_eqb_eq. unfold index_key. simpl. congruence. }
  destruct (Doc.has "_id" user).
  - destruct (Hviol user (next_oid w) (stdout w) eq_refl) as [ix' Hv].
    destruct w as [cs nxt out]. simpl in *. rewrite Hv. eauto.
  - destruct (Hviol (("_id", VOid (next_oid w)) :: user)
                (next_oid w + 1)%N (stdout w) eq_refl) as [ix' Hv].
    cbv zeta. rewrite Hv. eauto.
Qed.

(** C7.  After a successful [create_indexes] a second call succeeds too
    and leaves the world exactly as it found it, with each of the four
    declarations in place: no index is added.  From then on a user whose
    email is already stored is refused with a duplicate-key error and no
    collection changes.  And when two stored users share an email (on a
    collection whose unique indexes hold), [create_indexes] raises at its
    first declaration and nothing is written. *)
Theorem create_indexes_idempotent (w : world) :
  (∀ w1, create_indexes w = (Return PyNone, w1) →
     create_indexes w1 = (Return PyNone, w1)
     ∧ declared "users" (Index "email_1" [("email", ASCENDING)] true) w1
     ∧ declared "courses"
         (Index "title_1_category_1"
            [("title", ASCENDING); ("category", ASCENDING)] false) w1
     ∧ declared "assignments" (Index "dueDate_1" [("dueDate", ASCENDING)] false) w1
     ∧ declared "enrollments"
         (Index "studentId_1_courseId_1"
            [("studentId", ASCENDING); ("courseId", ASCENDING)] false) w1
     ∧ (∀ user stored,
          stored ∈ c_docs (coll_of w1 "users") →
          Doc.get_or_null "email" stored = Doc.get_or_null "email" user →
          ∃ msg w2, add_student_user user w1 = (Raise (DuplicateKeyError msg), w2)
                    ∧ colls w2 = colls w1))
  ∧ (coll_sound (coll_of w "users") = true →
     shares_value "email" (c_docs (coll_of w "users")) →
     ∃ e, create_indexes w = (Raise e, w)).
Proof.
  split.
  - intros w1. unfold create_indexes, bind, ret.
    destruct (create_index "users" _ _ w) as [[ra|e] wa] eqn:Ha; [|discriminate].
    destruct (create_index "courses" _ _ wa) as [[rb|e] wb] eqn:Hb; [|discriminate].
    destruct (create_index "assignments" _ _ wb) as [[rc|e] wc] eqn:Hc; [|discriminate].
    destruct (create_index "enrollments" _ _ wc) as [[rd|e] wd] eqn:Hd; [|discriminate].
    intros [= <-].
    apply create_index_success in Ha as (Da & _ & Fa).
    apply create_index_success in Hb as (Db & _ & Fb).
    apply create_index_success in Hc as (Dc & _ & Fc).
    apply create_index_success in Hd as (Dd & _ & Fd).
    assert (declared "users" (Index "email_1" [("email", ASCENDING)] true) wd) as Eu.
    { eapply declared_frame; [|exact Da].
      rewrite Fd, Fc, Fb by discriminate. reflexivity. }
    assert (declared "courses" (Index "title_1_category_1"
              [("title", ASCENDING); ("category", ASCENDING)] false) wd) as Ec.
    { eapply declared_frame; [|exact Db]. rewrite Fd, Fc by discriminate. reflexivity. }
    assert (declared "assignments" (Index "dueDate_1" [("dueDate", ASCENDING)] false) wd) as Ea.
    { eapply declared_frame; [|exact Dc]. rewrite Fd by discriminate. reflexivity. }
    repeat split; auto.
    + rewrite (create_index_declared "users" [("email", ASCENDING)] true wd Eu).
      rewrite (create_index_declared "courses"
                 [("title", ASCENDING); ("category", ASCENDING)] false wd Ec).
      rewrite (create_index_declared "assignments" [("dueDate", ASCENDING)] false wd Ea).
      rewrite (create_index_declared "enrollments"
                 [("studentId", ASCENDING); ("courseId", ASCENDING)] false wd Dd).
      reflexivity.
    + intros user stored Hst Hmail. unfold add_student_user.
      apply find_some in Eu as [Hin _].
      eapply insert_one_duplicate_email; eauto.
  - intros Hsound Hshare. unfold create_indexes.
    destruct (create_index_duplicate "users" [("email", ASCENDING)] w Hsound) as [e He].
    { apply shares_value_duplicate, Hshare. }
    exists e. unfold bind. rewrite He. reflexivity.
Qed.

End Indexes.

(** ** Grouping *)

Section Grouping.
Context {arithmetic : Arithmetic}.

Lemma omapM_Return {A B} (f : A → outcome B) (g : A → B) l :
  (∀ x, x ∈ l → f x = Return (g x)) → omapM f l = Return (map g l).
Proof.
  induction l as [|x l IH]; simpl; intros H; [reflexivity|].
  rewrite H by left. simpl. rewrite IH; [reflexivity|].
  intros y Hy. apply H. right. exact Hy.
Qed.

Lemma table_add_get inits r t k :
  table_get k (table_add inits r t) =
    if value_eqb r.1 k
    then Some (feed_all (default inits (table_get k t)) r.2)
    else table_get k t.
Proof.
  unfold table_get. induction t as [|[k' sts] t IH]; simpl.
  - destruct (value_eqb r.1 k); reflexivity.
  - destruct (value_eqb k' r.1) eqn:E; simpl.
    + apply value_eqb_eq in E as ->. destruct (value_eqb r.1 k); reflexivity.
    + destruct (value_eqb k' k) eqn:E'; simpl.
      * apply value_eqb_eq in E' as ->. rewrite value_eqb_sym, E. reflexivity.
      * exact IH.
Qed.

Lemma table_add_keys inits (r : row) (t : table) :
  map fst (table_add inits r t) =
    if decide (r.1 ∈ (map fst t : list value))
    then map fst t else map fst t ++ [r.1].
Proof.
  induction t as [|[k' sts] t IH]; simpl.
  - reflexivity.
  - destruct (value_eqb k' r.1) eqn:E; simpl.
    + apply value_eqb_eq in E as ->.
      rewrite decide_True by left. reflexivity.
    + apply value_eqb_neq in E. rewrite IH.
      destruct (decide (r.1 ∈ map fst t)) as [H|H].
      * rewrite decide_True by (right; exact H). reflexivity.
      * rewrite decide_False; [reflexivity|].
        intros [?|?]%elem_of_cons; congruence.
Qed.

Lemma table_add_NoDup inits r t :
  NoDup (map fst t) → NoDup (map fst (table_add inits r t)).
Proof.
  intros H. rewrite table_add_keys. case_decide as Hn; [exact H|].
  apply NoDup_app. repeat split; auto.
  - intros x Hx ->%list_elem_of_singleton. auto.
  - apply NoDup_singleton.
Qed.

Lemma fold_table_NoDup inits rows t :
  NoDup (map fst t) →
  NoDup (map fst (fold_left (λ t r, table_add inits r t) rows t)).
Proof.
  revert t. induction rows as [|r rows IH]; intros t H; simpl; [exact H|].
  apply IH, table_add_NoDup, H.
Qed.

Lemma fold_table_get inits rows t k :
  table_get k (fold_left (λ t r, table_add inits r t) rows t) =
    match table_get k t, map snd (filter (λ r : row, value_eqb r.1 k) rows) with
    | Some sts, ops => Some (fold_left feed_all ops sts)
    | None, [] => None
    | None, ops => Some (fold_left feed_all ops inits)
    end.
Proof.
  revert t. induction rows as [|r rows IH]; intros t; simpl.
  - destruct (table_get k t); reflexivity.
  - rewrite IH, table_add_get, filter_cons.
    destruct (value_eqb r.1 k) eqn:E.
    + rewrite decide_True by exact I. simpl.
      destruct (table_get k t); reflexivity.
    + rewrite decide_False by exact id. reflexivity.
Qed.

Lemma filter_rows (key : doc → value) (ops : doc → list (option value)) k docs :
  map snd (filter (λ r : row, value_eqb r.1 k) (map (λ d, (key d, ops d)) docs))
  = map ops (filter (λ d, value_eqb (key d) k) docs).
Proof.
  induction docs as [|d docs IH]; simpl; [reflexivity|].
  rewrite !filter_cons. simpl.
  destruct (decide (value_eqb (key d) k)); simpl; rewrite IH; reflexivity.
Qed.

Lemma fold_feed_one {A} (op : A → option value) (ms : list A) st :
  fold_left feed_all (map (λ d, [op d]) ms) [st]
  = [fold_left acc_feed (map op ms) st].
Proof.
  revert st. induction ms as [|m ms IH]; intros st; simpl; [reflexivity|].
  apply IH.
Qed.

Lemma find_group_docs names (t : table) k :
  find_group k (map (group_doc names) t)
  = (λ sts, group_doc names (k, sts)) <$> table_get k t.
Proof.
  unfold find_group, table_get. induction t as [|[k' sts] t IH]; simpl; [reflexivity|].
  unfold Doc.get_or_null at 1. simpl.
  destruct (value_eqb k' k) eqn:E; simpl; [|exact IH].
  apply value_eqb_eq in E as ->. reflexivity.
Qed.

(** The output of a [$group] with one accumulator, when key and operand
    evaluate without error on every input document: one document for
    each key that occurs, holding the accumulated operands of the input
    documents of that key, taken in input order. *)
Lemma run_group_one id name acc docs (key : doc → value)
    (op : doc → option value) :
  (∀ d, d ∈ docs → group_row id [(name, acc)] d = Return (key d, [op d])) →
  ∃ res, run_group id [(name, acc)] docs = Return res
    ∧ NoDup (map (Doc.get_or_null "_id") res)
    ∧ ∀ k, find_group k res =
        match filter (λ d, value_eqb (key d) k) docs with
        | [] => None
        | ms => Some [ ("_id", k);
                       (name, acc_final (fold_left acc_feed (map op ms)
                                           (acc_init acc))) ]
        end.
Proof.
  intros Hrow. unfold run_group.
  rewrite (omapM_Return _ (λ d, (key d, [op d]))) by exact Hrow.
  simpl. eexists. split; [reflexivity|]. split.
  - rewrite map_map.
    rewrite (map_ext _ fst) by (intros [? ?]; reflexivity).
    apply fold_table_NoDup. constructor.
  - intros k. rewrite find_group_docs. unfold group_rows.
    rewrite fold_table_get. unfold table_get at 1. simpl.
    rewrite (filter_rows key (λ d, [op d])).
    destruct (filter (λ d, value_eqb (key d) k) docs) as [|m ms] eqn:E;
      [reflexivity|].
    simpl. rewrite fold_feed_one. reflexivity.
Qed.

(** Integers are added and multiplied exactly. *)
Lemma is_integer_inject z : is_integer (Q2Qc (inject_Z z)) = true.
Proof.
  unfold is_integer. cbn [Q2Qc this].
  rewrite Qred_identity; [reflexivity|]. apply Z.gcd_1_r.
Qed.

Lemma total_integers l : forallb is_integer l = true → total l = Qc_sum l.
Proof. unfold total. intros ->. reflexivity. Qed.


(** What the two accumulators hold at the end. *)
Lemma Qc_sum_cons q qs : Qc_sum (q :: qs) = (q + Qc_sum qs)%Qc.
Proof. reflexivity. Qed.

Lemma Qc_plus_zero (x : Qc) : (x + Q2Qc 0)%Qc = x.
Proof. ring. Qed.

Lemma Qc_zero_plus (x : Qc) : (Q2Qc 0 + x)%Qc = x.
Proof. ring. Qed.

Lemma fold_feed_sum vs fed :
  fold_left acc_feed vs (StSum fed) = StSum (fed ++ omap number_of vs).
Proof.
  revert fed. induction vs as [|v vs IH]; intros fed.
  - cbn [fold_left omap list_omap]. rewrite app_nil_r. reflexivity.
  - cbn [fold_left]. destruct v as [[| |q| | | | |]|];
      cbn [acc_feed omap list_omap number_of]; rewrite IH; try reflexivity.
    rewrite <- app_assoc. reflexivity.
Qed.

Lemma fold_feed_avg vs fed :
  fold_left acc_feed vs (StAvg fed) = StAvg (fed ++ omap number_of vs).
Proof.
  revert fed. induction vs as [|v vs IH]; intros fed.
  - cbn [fold_left omap list_omap]. rewrite app_nil_r. reflexivity.
  - cbn [fold_left]. destruct v as [[| |q| | | | |]|];
      cbn [acc_feed omap list_omap number_of]; rewrite IH; try reflexivity.
    rewrite <- app_assoc. reflexivity.
Qed.

Lemma acc_sum_final e vs :
  acc_final (fold_left acc_feed vs (acc_init (ASum e)))
  = VNum (total (omap number_of vs)).
Proof. cbn [acc_init]. rewrite fold_feed_sum. reflexivity. Qed.

Lemma acc_avg_final e vs :
  acc_final (fold_left acc_feed vs (acc_init (AAvg e)))
  = mean_value (omap number_of vs).
Proof.
  cbn [acc_init]. rewrite fold_feed_avg. cbn [app].
  unfold mean_value, mean, acc_final.
  destruct (omap number_of vs); reflexivity.
Qed.

End Grouping.

(** ** The grouped queries *)

Section GroupQueries.
Import Eduhub.
Context {arithmetic : Arithmetic}.

Lemma Q2Qc_plus a b : (Q2Qc a + Q2Qc b)%Qc = Q2Qc (a + b).
Proof.
  apply Qc_is_canon. simpl. rewrite !Qred_correct. reflexivity.
Qed.

Lemma Qc_sum_ones {A} (l : list A) :
  Qc_sum (omap number_of (map (λ _, Some (num 1)) l))
  = Q2Qc (inject_Z (Z.of_nat (length l))).
Proof.
  induction l as [|x l IH]; [reflexivity|].
  cbn [map omap list_omap number_of num length]. rewrite Qc_sum_cons.
  fold (omap number_of (map (λ _ : A, Some (num 1)) l)). rewrite IH, Q2Qc_plus.
  apply Q2Qc_eq_iff. rewrite <- inject_Z_plus. apply inject_Z_injective. lia.
Qed.

Lemma length_omap_ones {A} (l : list A) :
  length (omap number_of (map (λ _ : A, Some (num 1)) l)) = length l.
Proof.
  induction l as [|x l IH]; [reflexivity|].
  cbn [map omap list_omap number_of num length]. f_equal. exact IH.
Qed.

Lemma total_ones {A} (l : list A) :
  total (omap number_of (map (λ _, Some (num 1)) l))
  = Q2Qc (inject_Z (Z.of_nat (length l))).
Proof.
  rewrite total_integers; [apply Qc_sum_ones|].
  induction l as [|x l IH]; [reflexivity|].
  cbn [map omap list_omap number_of num forallb].
  rewrite is_integer_inject. exact IH.
Qed.

(** A [$group] on a field with one accumulator over a field. *)
Lemma group_by_field f name acc g docs :
  acc_operand acc = EField g →
  ∃ res, run_group (EField f) [(name, acc)] docs = Return res
    ∧ NoDup (map (Doc.get_or_null "_id") res)
    ∧ ∀ k, find_group k res =
        match with_key f k docs with
        | [] => None
        | ms => Some [ ("_id", k);
                       (name, acc_final (fold_left acc_feed (map (Doc.get g) ms)
                                           (acc_init acc))) ]
        end.
Proof.
  intros Hop.
  apply (run_group_one (EField f) name acc docs (Doc.get_or_null f) (Doc.get g)).
  intros d _. unfold group_row. simpl. rewrite Hop. reflexivity.
Qed.

(** Per-field averages: one group for each value of [f] that occurs,
    holding the mean of the numeric values of [g] in that group. *)
Lemma average_by_field f name g docs :
  ∃ res, run_group (EField f) [(name, AAvg (EField g))] docs = Return res
    ∧ NoDup (map (Doc.get_or_null "_id") res)
    ∧ ∀ k, find_group k res =
        match with_key f k docs with
        | [] => None
        | ms => Some [("_id", k); (name, mean_value (numbers g ms))]
        end.
Proof.
  destruct (group_by_field f name (AAvg (EField g)) g docs eq_refl)
    as (res & Hres & Hnd & Hk).
  exists res. repeat split; auto.
  intros k. rewrite Hk. destruct (with_key f k docs); [reflexivity|].
  rewrite acc_avg_final. reflexivity.
Qed.

(** C3, as the code has it.  The count query is seeded by the
    enrollments: for every key, the group of that key exists exactly when
    some enrollment carries it as [courseId], and then holds the number of
    such enrollments; no two groups share a key.  A course without
    enrollments has no group. *)
Theorem total_enrollments_per_course_counts (w : world) :
  ∃ res, total_enrollments_per_course w = (Return res, w)
    ∧ NoDup (map (Doc.get_or_null "_id") res)
    ∧ ∀ k, find_group k res =
        match with_key "courseId" k (c_docs (coll_of w "enrollments")) with
        | [] => None
        | es => Some [("_id", k); ("totalEnrollments", count (length es))]
        end.
Proof.
  unfold total_enrollments_per_course, aggregate. simpl.
  destruct (run_group_one (EField "courseId") "totalEnrollments"
              (ASum (ELit (num 1))) (c_docs (coll_of w "enrollments"))
              (Doc.get_or_null "courseId") (λ _, Some (num 1)))
    as (res & Hres & Hnd & Hk); [reflexivity|].
  exists res. rewrite Hres. repeat split; auto.
  intros k. rewrite Hk. unfold with_key.
  destruct (filter _ (c_docs (coll_of w "enrollments"))) as [|e es];
    [reflexivity|].
  rewrite acc_sum_final, total_ones. reflexivity.
Qed.

Lemma filter_bool_ext {A} (p q : A → bool) (l : list A) :
  (∀ x, p x = q x) → filter (λ x, p x) l = filter (λ x, q x) l.
Proof.
  intros H. induction l as [|x l IH]; [reflexivity|].
  rewrite !filter_cons, IH, H. reflexivity.
Qed.

Lemma filter_ext_in {A} (p q : A → bool) (l : list A) :
  (∀ x, x ∈ l → p x = q x) → filter (λ x, p x) l = filter (λ x, q x) l.
Proof.
  induction l as [|x l IH]; intros H; [reflexivity|].
  rewrite !filter_cons, (H x) by left.
  rewrite IH by (intros y Hy; apply H; right; exact Hy). reflexivity.
Qed.

Lemma matches_exists f d : matches [(f, CExists true)] d = Doc.has f d.
Proof.
  unfold matches, Doc.has. simpl. destruct (Doc.get f d); reflexivity.
Qed.

Lemma match_exists_carrying f docs :
  filter (matches [(f, CExists true)]) docs = carrying f docs.
Proof.
  unfold carrying. apply (filter_bool_ext (matches [(f, CExists true)]) (Doc.has f)).
  intros d. apply matches_exists.
Qed.

Lemma carrying_app f l1 l2 :
  carrying f (l1 ++ l2) = carrying f l1 ++ carrying f l2.
Proof. apply filter_app. Qed.

Lemma carrying_without f c l :
  Doc.get f c = None → carrying f (c :: l) = carrying f l.
Proof.
  intros H. unfold carrying. rewrite filter_cons_False; [reflexivity|].
  unfold Doc.has. rewrite H. exact id.
Qed.

(** An average per key over the documents that carry the averaged field:
    the shape of both rating queries. *)
Lemma rated_average name key docs w :
  ∃ res,
    run_pipeline w
      [ SMatch [("rating", CExists true)];
        SGroup (EField key) [(name, AAvg (EField "rating"))] ] docs
    = Return res
    ∧ NoDup (map (Doc.get_or_null "_id") res)
    ∧ ∀ k, find_group k res =
        match with_key key k (carrying "rating" docs) with
        | [] => None
        | cs => Some [("_id", k); (name, mean_value (numbers "rating" cs))]
        end.
Proof.
  cbn [run_pipeline run_stage obind]. rewrite match_exists_carrying.
  destruct (average_by_field key name "rating" (carrying "rating" docs))
    as (res & -> & Hnd & Hk).
  exists res. auto.
Qed.

(** C6.  A course without a [rating] field can be taken out of the
    collection without changing either rating query; and each query
    returns, for every key, the mean of the numeric ratings of the courses
    of that key among the courses that carry a rating, as the server
    computes it, or no group when there is no such course. *)
Theorem unrated_courses_do_not_count
    (w : world) (ixs : list index) (before after : list doc) (c : doc) :
  Doc.get "rating" c = None →
  let w_with := put_coll "courses" (Coll (before ++ c :: after) ixs) w in
  let w_without := put_coll "courses" (Coll (before ++ after) ixs) w in
  (average_course_rating w_with).1 = (average_course_rating w_without).1
  ∧ (average_rating_per_instructor w_with).1
    = (average_rating_per_instructor w_without).1
  ∧ (∃ res, (average_course_rating w_with).1 = Return res
       ∧ ∀ k, find_group k res =
           match with_key "courseId" k (carrying "rating" (before ++ after)) with
           | [] => None
           | cs => Some [("_id", k); ("avgRating", mean_value (numbers "rating" cs))]
           end)
  ∧ (∃ res, (average_rating_per_instructor w_with).1 = Return res
       ∧ ∀ k, find_group k res =
           match with_key "instructorId" k (carrying "rating" (before ++ after)) with
           | [] => None
           | cs => Some [("_id", k); ("averageRating", mean_value (numbers "rating" cs))]
           end).
Proof.
  intros Hc w_with w_without.
  assert (carrying "rating" (before ++ c :: after)
          = carrying "rating" (before ++ after)) as Hsame.
  { rewrite !carrying_app, carrying_without by exact Hc. reflexivity. }
  unfold average_course_rating, average_rating_per_instructor, aggregate.
  subst w_with w_without. rewrite !coll_of_put_eq. cbn [fst c_docs].
  destruct (rated_average "avgRating" "courseId" (before ++ c :: after)
              (put_coll "courses" (Coll (before ++ c :: after) ixs) w))
    as (r1 & H1 & _ & K1).
  destruct (rated_average "averageRating" "instructorId" (before ++ c :: after)
              (put_coll "courses" (Coll (before ++ c :: after) ixs) w))
    as (r2 & H2 & _ & K2).
  rewrite Hsame in K1, K2.
  assert (∀ name key l w1 w2,
            carrying "rating" l = carrying "rating" (before ++ after) →
            run_pipeline w1
              [ SMatch [("rating", CExists true)];
                SGroup (EField key) [(name, AAvg (EField "rating"))] ] l
            = run_pipeline w2
              [ SMatch [("rating", CExists true)];
                SGroup (EField key) [(name, AAvg (EField "rating"))] ]
              (before ++ after)) as Hrun.
  { intros name key l w1 w2 Hl. cbn [run_pipeline run_stage obind].
    rewrite !match_exists_carrying, Hl. reflexivity. }
  repeat split.
  - apply Hrun, Hsame.
  - apply Hrun, Hsame.
  - exists r1. auto.
  - exists r2. auto.
Qed.

(** C9.  The completion-rate query and the engagement query are the same
    computation: on every world they return the same thing, which is, for
    every [courseId] that some enrollment carries, one group holding the
    mean of the numeric [progress] values of the enrollments of that
    course, as the server computes it. *)
Theorem completion_rate_is_engagement (w : world) :
  completion_rate_by_course w = student_engagement_metrics w
  ∧ ∃ res, student_engagement_metrics w = (Return res, w)
      ∧ NoDup (map (Doc.get_or_null "_id") res)
      ∧ ∀ k, find_group k res =
          match with_key "courseId" k (c_docs (coll_of w "enrollments")) with
          | [] => None
          | es => Some [("_id", k); ("avgProgress", mean_value (numbers "progress" es))]
          end.
Proof.
  split; [reflexivity|].
  unfold student_engagement_metrics, aggregate. cbn [run_pipeline run_stage].
  destruct (average_by_field "courseId" "avgProgress" "progress"
              (c_docs (coll_of w "enrollments"))) as (res & -> & Hnd & Hk).
  exists res. auto.
Qed.

End GroupQueries.

(** ** Sorting *)

Section SortFacts.
Variable keys : list (string * Z).

Lemma sort_insert_perm x l : sort_insert keys x l ≡ₚ x :: l.
Proof.
  induction l as [|y l IH]; simpl; [reflexivity|].
  destruct (sort_leb keys x y); [reflexivity|].
  rewrite IH. apply Permutation_swap.
Qed.

Lemma run_sort_perm l : run_sort keys l ≡ₚ l.
Proof.
  induction l as [|x l IH]; simpl; [reflexivity|].
  rewrite sort_insert_perm, IH. reflexivity.
Qed.

(** Sortedness, for documents of a kind [P] on which the sort order is a
    total preorder [R]. *)
Variable P : doc → Prop.
Variable R : doc → doc → Prop.
Hypothesis leb_R : ∀ x y, P x → P y → sort_leb keys x y = true → R x y.
Hypothesis not_leb_R : ∀ x y, P x → P y → sort_leb keys x y = false → R y x.
Hypothesis R_trans : ∀ x y z, R x y → R y z → R x z.



End SortFacts.


(** ** Looking a group up *)



(** ** Top-performing students *)

Section TopStudents.
Import Eduhub.
Context {arithmetic : Arithmetic}.

Lemma Qc_ge_compare (x y : Qc) : (y <= x)%Qc ↔ (x ?= y)%Qc ≠ Lt.
Proof. exact (Qcge_alt x y). Qed.








End TopStudents.

(** ** Revenue per instructor *)

Section Revenue.
Import Eduhub.
Context {arithmetic : Arithmetic}.


Lemma filter_map_comm {A B} (p : B → bool) (q : A → bool) (h : A → B) l :
  (∀ x, p (h x) = q x) →
  filter (λ y, p y) (map h l) = map h (filter (λ x, q x) l).
Proof.
  intros H. induction l as [|x l IH]; simpl; [reflexivity|].
  rewrite !filter_cons, H, IH. destruct (decide (q x)); reflexivity.
Qed.








End Revenue.

(** ** Monthly enrollment trends *)

Section Monthly.
Import Eduhub.
Context {arithmetic : Arithmetic}.

Lemma fold_table_one_key inits k (opss : list (list (option value))) sts :
  fold_left (λ t (r : row), table_add inits r t)
    (map (λ ops, (k, ops)) opss) [(k, sts)]
  = [(k, fold_left feed_all opss sts)].
Proof.
  revert sts. induction opss as [|ops opss IH]; intros sts; [reflexivity|].
  cbn [map fold_left table_add fst snd]. rewrite value_eqb_refl. apply IH.
Qed.

Lemma group_rows_one_key inits k (opss : list (list (option value))) :
  group_rows inits (map (λ ops, (k, ops)) opss)
  = match opss with
    | [] => []
    | _ => [(k, fold_left feed_all opss inits)]
    end.
Proof.
  destruct opss as [|ops opss]; [reflexivity|].
  unfold group_rows. cbn [map fold_left table_add fst snd].
  apply fold_table_one_key.
Qed.

Lemma stored_enrollment_no_date d :
  stored_enrollment d → Doc.get "enrollmentDate" d = None.
Proof. intros (oid & i & s & c & t & p & b & ->). reflexivity. Qed.

Lemma stored_enrollment_enrolledAt d :
  stored_enrollment d → ∃ t, Doc.get "enrolledAt" d = Some (VDate t).
Proof. intros (oid & i & s & c & t & p & b & ->). exists t. reflexivity. Qed.

(** C1, as the code has it.  The pipeline reads [enrollmentDate]; the
    generator wrote [enrolledAt].  On enrollments stored by the generator
    the period of every document is therefore [null], and the query
    returns a single group holding all of them, whatever their months. *)
Theorem monthly_enrollment_trends_one_group (w : world) :
  Forall stored_enrollment (c_docs (coll_of w "enrollments")) →
  monthly_enrollment_trends w
  = (Return match c_docs (coll_of w "enrollments") with
            | [] => []
            | es => [[ ("_id", VNull);
                       ("totalEnrollments", count (length es)) ]]
            end, w).
Proof.
  intros Hgen. unfold monthly_enrollment_trends, aggregate. f_equal.
  set (es := c_docs (coll_of w "enrollments")) in *.
  cbn [run_pipeline run_stage]. unfold run_group.
  rewrite (omapM_Return _ (λ _, (VNull, [Some (num 1)]))); cycle 1.
  { intros d Hd. rewrite Forall_forall in Hgen.
    unfold group_row. cbn [eval obind].
    rewrite (stored_enrollment_no_date d (Hgen d Hd)). reflexivity. }
  cbn [obind map fst snd].
  rewrite <- (map_map (λ _ : doc, [Some (num 1)]) (λ ops, (VNull, ops))).
  rewrite group_rows_one_key.
  destruct es as [|e es']; [reflexivity|].
  set (l := e :: es').
  change (map (λ _ : doc, [Some (num 1)]) l)
    with ([Some (num 1)] :: map (λ _ : doc, [Some (num 1)]) es').
  cbv iota.
  change ([Some (num 1)] :: map (λ _ : doc, [Some (num 1)]) es')
    with (map (λ _ : doc, [Some (num 1)]) l).
  rewrite (fold_feed_one (λ _ : doc, Some (num 1))).
  unfold group_doc. cbn [map zip zip_with fst snd run_sort sort_insert].
  change (StSum []) with (acc_init (ASum (ELit (num 1)))).
  rewrite (acc_sum_final (ELit (num 1))), total_ones. reflexivity.
Qed.

End Monthly.

(** ** The properties on the sample data *)

Section OnSamples.
Import Eduhub Sample.
#[local] Existing Instance binary64.



Lemma campus_enrollments :
  c_docs (coll_of campus "enrollments")
  = [ ("_id", VOid 6) :: enrollment_doc 0 bob algebra (mid 1) (Q2Qc 40) false;
      ("_id", VOid 7) :: enrollment_doc 1 cyd algebra (mid 2) (Q2Qc 60) true;
      ("_id", VOid 8) :: enrollment_doc 2 dee algebra (mid 3) (Q2Qc 80) false ].
Proof. vm_compute. reflexivity. Qed.

(** The three enrollments of the campus fall in January, February and
    March, and the trend query puts them in one group without a period. *)
Lemma monthly_enrollment_trends_campus :
  map month_of (c_docs (coll_of campus "enrollments"))
  = [Some "2024-01"; Some "2024-02"; Some "2024-03"]
  ∧ monthly_enrollment_trends campus
    = (Return [[("_id", VNull); ("totalEnrollments", count 3)]], campus).
Proof.
  split; [vm_compute; reflexivity|].
  rewrite (monthly_enrollment_trends_one_group campus).
  - reflexivity.
  - rewrite campus_enrollments. repeat constructor.
    + exists (VOid 6), 0, bob, algebra, (mid 1), (Q2Qc 40), false. reflexivity.
    + exists (VOid 7), 1, cyd, algebra, (mid 2), (Q2Qc 60), true. reflexivity.
    + exists (VOid 8), 2, dee, algebra, (mid 3), (Q2Qc 80), false. reflexivity.
Defined.

(** The same pipeline reading the field that the generator wrote gives
    one group per month, in ascending order of the period. *)
Example trends_by_enrolledAt_campus :
  run_pipeline campus
    [ SGroup (EDateToString "%Y-%m" (EField "enrolledAt"))
             [("totalEnrollments", ASum (ELit (num 1)))];
      SSort [("_id", 1%Z)] ]
    (c_docs (coll_of campus "enrollments"))
  = Return [ [("_id", VStr "2024-01"); ("totalEnrollments", count 1)];
             [("_id", VStr "2024-02"); ("totalEnrollments", count 1)];
             [("_id", VStr "2024-03"); ("totalEnrollments", count 1)] ].
Proof. vm_compute. reflexivity. Qed.

(** The same update addressed to [submissions] selects the stored
    submission and rewrites its grade. *)
Example update_one_on_submissions_campus :
  ∃ w', update_one "submissions" [("_id", CEq (VOid 11))] [("grade", num 100)]
          campus
        = (Return (PyUpdateResult 1 1), w')
    ∧ Doc.get "grade" <$> (c_docs (coll_of w' "submissions") !! 0)
      = Some (Some (num 100)).
Proof. eexists. split; vm_compute; reflexivity. Qed.

(** Botany is a stored course without enrollments, and the count query
    has no group for it: not every course is reported. *)
Lemma campus_course_not_reported : ¬ reports_every_course campus.
Proof.
  intros (res & Hres & Hall).
  destruct (Hall (("_id", VOid 5) :: botany)) as (g & Hg & _).
  { apply list_elem_of_In. vm_compute. right. left. reflexivity. }
  vm_compute in Hres. injection Hres as <-.
  vm_compute in Hg. discriminate.
Qed.




(** A price that is a double: three enrollments at 59.95 bring in the
    double nearest to the product, 179.85000000000002, which is not the
    double of 179.85. *)
Example revenue_of_a_double_price :
  let w := put_coll "courses"
             (Coll [ ("_id", VOid 4)
                     :: course_doc 0 "Linear algebra" "Vectors." ada
                          "Data Science" "beginner" (Q2Qc 12) (float 5995 100)
                          ["Python"; "Cloud"] (mid 3) (mid 3) true ]
                   [id_index]) campus in
  ∃ res r, revenue_per_instructor w = (Return res, w)
    ∧ find_group (VStr "u001") res
      = Some [("_id", VStr "u001"); ("totalRevenue", VNum r)]
    ∧ r = round64 (Q2Qc 3 * float 5995 100)
    ∧ r ≠ float 17985 100.
Proof.
  intros w. eexists. eexists. split; [vm_compute; reflexivity|].
  split; [vm_compute; reflexivity|]. split.
  - apply Qc_is_canon. vm_compute. reflexivity.
  - intros E. apply (f_equal this) in E. vm_compute in E. discriminate.
Qed.


(** The doubles nearest to 85.91, 99.46 and 84.63 add up to a little
    less than 270, but the average that the server computes from them is
    90: the student is returned, with that average. *)
Example top_performing_students_graded :
  ∃ a, top_performing_students graded
       = (Return [[("_id", VStr "u001"); ("averageGrade", VNum a)]], graded)
    ∧ a = Q2Qc 90
    ∧ (Qc_sum [float 8591 100; float 9946 100; float 8463 100] < Q2Qc 270)%Qc.
Proof.
  eexists. split; [vm_compute; reflexivity|]. split.
  - apply Qc_is_canon. vm_compute. reflexivity.
  - vm_compute. reflexivity.
Qed.

(** A course without rating between two rated ones changes neither
    rating query. *)
Lemma unrated_course_between_rated :
  let w_with :=
    put_coll "courses"
      (Coll ([rated algebra 4] ++ botany :: [rated algebra 2]) [id_index]) empty in
  let w_without :=
    put_coll "courses"
      (Coll ([rated algebra 4] ++ [rated algebra 2]) [id_index]) empty in
  (average_course_rating w_with).1 = (average_course_rating w_without).1
  ∧ (average_rating_per_instructor w_with).1
    = (average_rating_per_instructor w_without).1.
Proof.
  destruct (unrated_courses_do_not_count empty [id_index]
              [rated algebra 4] [rated algebra 2] botany eq_refl)
    as (H1 & H2 & _).
  split; assumption.
Defined.

(** On the campus the declarations succeed twice, the second time without
    effect, and Bob cannot be registered again; on the twins the first
    declaration is refused. *)
Lemma create_indexes_campus_and_twins :
  let w1 := (create_indexes campus).2 in
  create_indexes campus = (Return PyNone, w1)
  ∧ create_indexes w1 = (Return PyNone, w1)
  ∧ (∃ msg w2, add_student_user bob w1 = (Raise (DuplicateKeyError msg), w2)
               ∧ colls w2 = colls w1)
  ∧ (∃ e, create_indexes twins = (Raise e, twins)).
Proof.
  intros w1.
  assert (create_indexes campus = (Return PyNone, w1)) as H.
  { subst w1. rewrite (surjective_pairing (create_indexes campus)) at 1.
    reflexivity. }
  destruct (create_indexes_idempotent campus) as [Hok _].
  destruct (Hok w1 H) as (Hagain & _ & _ & _ & _ & Hdup).
  destruct (create_indexes_idempotent twins) as [_ Hfail].
  split; [exact H|]. split; [exact Hagain|]. split.
  - apply (Hdup bob (("_id", VOid 1) :: bob)).
    + apply list_elem_of_In. vm_compute. right. left. reflexivity.
    + reflexivity.
  - apply Hfail.
    + vm_compute. reflexivity.
    + exists 0, 1. eexists. eexists. split; [discriminate|].
      split; [vm_compute; reflexivity|].
      split; [vm_compute; reflexivity|]. reflexivity.
Defined.

(** Deactivating Bob on the campus: the courses are untouched, the four
    users remain, and Bob keeps his email and is no longer active. *)
Lemma soft_delete_user_campus :
  let w' := (soft_delete_user (VStr "u002") campus).2 in
  colls w' !! "courses" = colls campus !! "courses"
  ∧ length (c_docs (coll_of w' "users")) = 4
  ∧ ∃ u', c_docs (coll_of w' "users") !! 1 = Some u'
      ∧ Doc.get "email" u' = Some (VStr "bob@eduhub.test")
      ∧ Doc.get "isActive" u' = Some (VBool false).
Proof.
  intros w'.
  destruct (soft_delete_user_frame (VStr "u002") campus)
    as (Hother & _ & _ & _ & Hlen & _ & Hfields & _).
  fold w' in Hother, Hlen, Hfields.
  split; [apply Hother; discriminate|].
  split; [rewrite Hlen; vm_compute; reflexivity|].
  destruct (Hfields 1 (("_id", VOid 1) :: bob)) as (u' & Hu' & Hsame & Hcase).
  { vm_compute. reflexivity. }
  exists u'. split; [exact Hu'|]. split.
  - rewrite Hsame by discriminate. reflexivity.
  - destruct Hcase as [-> | [_ H]]; [|exact H].
    vm_compute in Hu'. discriminate.
Defined.

(** The wrapper on the campus with its indexes declared: a new user is
    stored, Bob's second registration is swallowed with a printed line,
    and both calls return [None]. *)
Example insert_with_error_handling_campus :
  let w1 := (create_indexes campus).2 in
  let eve := user_doc 4 "eve@eduhub.test" "Eve" "Pine" "student" (mid 4)
               "New." "http://img/4" [] in
  (insert_with_error_handling (db "users") eve w1).1 = Return PyNone
  ∧ (insert_with_error_handling (db "users") bob w1).1 = Return PyNone
  ∧ length (c_docs (coll_of (insert_with_error_handling (db "users") eve w1).2
                      "users")) = 5
  ∧ length (c_docs (coll_of (insert_with_error_handling (db "users") bob w1).2
                      "users")) = 4
  ∧ stdout (insert_with_error_handling (db "users") bob w1).2
    = ["Insertion failed: E11000 duplicate key error index: email_1"].
Proof. repeat split; vm_compute; reflexivity. Qed.

End OnSamples.

(** * Further properties of the module *)

(** ** What the driver operations do to the store *)

Section DriverFacts.

Lemma update_one_is_with name q fields :
  update_one name q fields
  = update_one_with name q (λ d, Return (apply_set fields d)).
Proof. reflexivity. Qed.

(** The three ways an update can end: no document selected, refused, or
    the first selected document rewritten. *)
Lemma update_one_with_cases name q change w :
  (find_index q (c_docs (coll_of w name)) = None
   ∧ update_one_with name q change w = (Return (PyUpdateResult 0 0), w))
  ∨ (∃ e, update_one_with name q change w = (Raise e, w))
  ∨ ∃ i d d',
      find_index q (c_docs (coll_of w name)) = Some i
      ∧ c_docs (coll_of w name) !! i = Some d
      ∧ matches q d = true
      ∧ change d = Return d'
      ∧ Doc.get_or_null "_id" d' = Doc.get_or_null "_id" d
      ∧ first_violation (c_indexes (coll_of w name))
          (delete i (c_docs (coll_of w name))) d' = None
      ∧ update_one_with name q change w
        = (Return (PyUpdateResult 1 (if value_eqb (VDoc d') (VDoc d)
                                     then 0 else 1)),
           put_coll name (Coll (<[i := d']> (c_docs (coll_of w name)))
                               (c_indexes (coll_of w name))) w).
Proof.
  unfold update_one_with. cbv zeta.
  destruct (find_index q (c_docs (coll_of w name))) as [i|] eqn:Hi;
    [|left; auto].
  destruct (find_index_Some _ _ _ Hi) as (d & Hd & Hm). rewrite Hd.
  destruct (change d) as [d'|e] eqn:Hc; [|right; left; eauto].
  destruct (value_eqb (Doc.get_or_null "_id" d') (Doc.get_or_null "_id" d))
    eqn:Hid; [|right; left; eauto].
  apply value_eqb_eq in Hid. cbn [negb].
  destruct (first_violation _ _ d') eqn:Hv; [right; left; eauto|].
  right. right. exists i, d, d'. repeat split; auto.
Qed.

Lemma find_index_first q docs i :
  find_index q docs = Some i →
  ∀ j d, j < i → docs !! j = Some d → matches q d = false.
Proof.
  revert i. induction docs as [|x docs IH]; intros i; simpl; [discriminate|].
  destruct (matches q x) eqn:E.
  - intros [= <-] j d Hj. lia.
  - destruct (find_index q docs) as [k|]; simpl; [|discriminate].
    intros [= <-] j d Hj Hd. destruct j as [|j]; simpl in Hd.
    + congruence.
    + apply (IH k eq_refl j d); [lia | exact Hd].
Qed.

Lemma find_index_insert q docs i d' :
  find_index q docs = Some i → matches q d' = true →
  find_index q (<[i := d']> docs) = Some i.
Proof.
  revert i. induction docs as [|x docs IH]; intros i; simpl; [discriminate|].
  destruct (matches q x) eqn:E.
  - intros [= <-] Hm. simpl. rewrite Hm. reflexivity.
  - destruct (find_index q docs) as [k|] eqn:Hk; simpl; [|discriminate].
    intros [= <-] Hm. simpl. rewrite E, (IH k eq_refl Hm). reflexivity.
Qed.

Lemma delete_insert_same {A} (l : list A) i x :
  delete i (<[i := x]> l) = delete i l.
Proof.
  revert i. induction l as [|y l IH]; intros [|i]; simpl; auto.
  rewrite IH. reflexivity.
Qed.

Lemma put_coll_twice name c w :
  put_coll name c (put_coll name c w) = put_coll name c w.
Proof.
  unfold put_coll. simpl. rewrite insert_insert_eq. reflexivity.
Qed.

(** A repeated update changes nothing more, when the filter does not see
    the change and the change is itself idempotent. *)
Lemma update_one_with_twice name q change w :
  (∀ d d', change d = Return d' → matches q d' = matches q d) →
  (∀ d d', change d = Return d' → change d' = Return d') →
  (update_one_with name q change (update_one_with name q change w).2).2
  = (update_one_with name q change w).2
  ∧ ∀ r, (update_one_with name q change w).1 = Return r →
      ∃ m, (update_one_with name q change
              (update_one_with name q change w).2).1
           = Return (PyUpdateResult m 0).
Proof.
  intros Hq Hidem.
  destruct (update_one_with_cases name q change w)
    as [[_ Hrun]|[[e Hrun]|(i & d & d' & Hi & Hd & Hm & Hc & Hid & Hv & Hrun)]].
  - rewrite Hrun. simpl. rewrite Hrun. simpl. split; [reflexivity|].
    intros r _. exists 0%N. reflexivity.
  - rewrite Hrun. simpl. rewrite Hrun. simpl. split; [reflexivity|].
    intros r [=].
  - rewrite Hrun. cbn [fst snd].
    set (docs := c_docs (coll_of w name)) in *.
    set (ixs := c_indexes (coll_of w name)) in *.
    set (w' := put_coll name (Coll (<[i := d']> docs) ixs) w).
    assert (update_one_with name q change w'
            = (Return (PyUpdateResult 1 0), w')) as Hagain.
    { unfold update_one_with. cbv zeta. subst w'.
      rewrite coll_of_put_eq. cbn [c_docs c_indexes].
      rewrite (find_index_insert q docs i d' Hi)
        by (rewrite (Hq d d' Hc); exact Hm).
      rewrite list_lookup_insert_eq by (eapply lookup_lt_Some, Hd).
      rewrite (Hidem d d' Hc), value_eqb_refl. cbn [negb].
      rewrite delete_insert_same, Hv, value_eqb_refl.
      rewrite list_insert_insert_eq, put_coll_twice. reflexivity. }
    rewrite Hagain. split; [reflexivity|]. intros r _. exists 1%N. reflexivity.
Qed.

End DriverFacts.

(** ** More on the update accessors *)

Section MoreUpdates.
Import Eduhub.

Lemma set_set_same f v d : Doc.set f v (Doc.set f v d) = Doc.set f v d.
Proof.
  induction d as [|[k x] d IH]; simpl.
  - rewrite String.eqb_refl. reflexivity.
  - destruct (String.eqb k f) eqn:E; simpl; rewrite E; [reflexivity|].
    rewrite IH. reflexivity.
Qed.

Lemma matches_set_other f g c v d :
  f ≠ g → matches [(g, c)] (Doc.set f v d) = matches [(g, c)] d.
Proof.
  intros H. unfold matches. simpl. rewrite get_set_ne by exact H. reflexivity.
Qed.

Lemma set_one_twice f g c v name w :
  f ≠ g →
  (update_one name [(g, c)] [(f, v)] (update_one name [(g, c)] [(f, v)] w).2).2
  = (update_one name [(g, c)] [(f, v)] w).2
  ∧ ∀ r, (update_one name [(g, c)] [(f, v)] w).1 = Return r →
      ∃ m, (update_one name [(g, c)] [(f, v)]
              (update_one name [(g, c)] [(f, v)] w).2).1
           = Return (PyUpdateResult m 0).
Proof.
  intros Hne. rewrite update_one_is_with. apply update_one_with_twice.
  - intros d d' [= <-]. apply matches_set_other, Hne.
  - intros d d' [= <-]. unfold apply_set. simpl. rewrite set_set_same.
    reflexivity.
Qed.

(** X1.  Deactivating a user a second time, or publishing a course a second
    time, changes nothing: the world after two calls is the world after
    one, and when the first call returned, the second returns with
    [modified_count] 0. *)
Theorem deactivate_and_publish_are_idempotent (key : value) (w : world) :
  ((soft_delete_user key (soft_delete_user key w).2).2
   = (soft_delete_user key w).2
   ∧ ∀ r, (soft_delete_user key w).1 = Return r →
       ∃ m, (soft_delete_user key (soft_delete_user key w).2).1
            = Return (PyUpdateResult m 0))
  ∧ ((mark_course_published key (mark_course_published key w).2).2
     = (mark_course_published key w).2
     ∧ ∀ r, (mark_course_published key w).1 = Return r →
         ∃ m, (mark_course_published key (mark_course_published key w).2).1
              = Return (PyUpdateResult m 0)).
Proof.
  split.
  - apply (set_one_twice "isActive" "userId"). discriminate.
  - apply (set_one_twice "isPublished" "courseId"). discriminate.
Qed.

(** What [$set] leaves in a document: each listed field has its new
    value, every other field its old one. *)
Lemma apply_set_other fields f d :
  f ∉ fields.*1 → Doc.get f (apply_set fields d) = Doc.get f d.
Proof.
  unfold apply_set. revert d.
  induction fields as [|[k v] fields IH]; intros d Hf; simpl; [reflexivity|].
  simpl in Hf. apply not_elem_of_cons in Hf as [Hk Hf].
  rewrite IH by exact Hf. apply get_set_ne. congruence.
Qed.

Lemma apply_set_listed fields f v d :
  NoDup fields.*1 → (f, v) ∈ fields →
  Doc.get f (apply_set fields d) = Some v.
Proof.
  unfold apply_set. revert d.
  induction fields as [|[k x] fields IH]; intros d Hnd Hin; [inversion Hin|].
  simpl in Hnd. apply NoDup_cons in Hnd as [Hk Hnd].
  apply elem_of_cons in Hin as [[= <- <-]|Hin]; simpl.
  - fold (apply_set fields (Doc.set f v d)).
    rewrite apply_set_other by exact Hk. apply get_set_eq.
  - apply IH; auto.
Qed.

(** X2.  With update fields of different plain names (no dot, no leading
    dollar sign: names of top-level fields), [update_user_profile] that
    returns with [matched_count] 1 rewrote the first user selected by the
    identifier: every field named in the update holds its new value,
    every other field of that user and every other user are as before, no
    user was added or removed, the [_id] of the user is the old one, and
    the other collections are untouched. *)
Theorem update_user_profile_sets_fields
    (user_id : value) (update_fields : doc) (w w' : world) (m : N) :
  NoDup update_fields.*1 →
  forallb plain_name update_fields.*1 = true →
  update_user_profile user_id update_fields w
  = (Return (PyUpdateResult 1 m), w') →
  let users := c_docs (coll_of w "users") in
  let users' := c_docs (coll_of w' "users") in
  (∀ name, name ≠ "users" → colls w' !! name = colls w !! name)
  ∧ length users' = length users
  ∧ ∃ i u u',
      users !! i = Some u ∧ users' !! i = Some u'
      ∧ field_eq user_id (Doc.get "userId" u) = true
      ∧ (∀ j v, j < i → users !! j = Some v →
           field_eq user_id (Doc.get "userId" v) = false)
      ∧ (∀ j, j ≠ i → users' !! j = users !! j)
      ∧ (∀ f v, (f, v) ∈ update_fields → Doc.get f u' = Some v)
      ∧ (∀ f, f ∉ update_fields.*1 → Doc.get f u' = Doc.get f u)
      ∧ Doc.get_or_null "_id" u' = Doc.get_or_null "_id" u.
Proof.
  intros Hnd _ Hrun users users'. subst users users'.
  unfold update_user_profile in Hrun. rewrite update_one_is_with in Hrun.
  destruct (update_one_with_cases "users" [("userId", CEq user_id)]
              (λ d, Return (apply_set update_fields d)) w)
    as [[_ H]|[[e H]|(i & d & d' & Hi & Hd & Hm & Hc & Hid & _ & H)]];
    rewrite H in Hrun; try discriminate.
  injection Hc as <-. injection Hrun as _ <-.
  rewrite coll_of_put_eq. cbn [c_docs].
  split; [|split].
  - intros name Hne. simpl. apply lookup_insert_ne. congruence.
  - apply length_insert.
  - exists i, d, (apply_set update_fields d).
    assert (∀ v, matches [("userId", CEq user_id)] v
                 = field_eq user_id (Doc.get "userId" v)) as Hsel.
    { intros v. unfold matches. simpl. apply andb_true_r. }
    repeat split; auto.
    + apply list_lookup_insert_eq. eapply lookup_lt_Some, Hd.
    + rewrite <- Hsel. exact Hm.
    + intros j v Hj Hv. rewrite <- Hsel.
      apply (find_index_first _ _ _ Hi j v Hj Hv).
    + intros j Hj. apply list_lookup_insert_ne. congruence.
    + intros f v Hin. apply apply_set_listed; auto.
    + intros f Hf. apply apply_set_other, Hf.
Qed.

End MoreUpdates.

(** ** Inserting and reading back *)

Section Reads.
Import Eduhub.

Lemma get_cons_ne k v f d :
  k ≠ f → Doc.get f ((k, v) :: d) = Doc.get f d.
Proof.
  intros H. cbn [Doc.get]. apply String.eqb_neq in H. rewrite H. reflexivity.
Qed.

(** The document that [insert_one] stores for [document] in world [w]. *)
Lemma insert_one_returns name document w r w' :
  insert_one name document w = (Return r, w') →
  ∃ d, (d = document
        ∨ (Doc.has "_id" document = false
           ∧ d = ("_id", VOid (next_oid w)) :: document))
    ∧ r = PyInsertOneResult (Doc.get_or_null "_id" d)
    ∧ coll_of w' name
      = Coll (c_docs (coll_of w name) ++ [d]) (c_indexes (coll_of w name))
    ∧ ∀ other, other ≠ name → colls w' !! other = colls w !! other.
Proof.
  unfold insert_one, bind, with_id, store_doc, ret.
  destruct (Doc.has "_id" document) eqn:Hid.
  - cbv zeta. destruct (first_violation _ _ document); [discriminate|].
    intros [= <- <-]. exists document. rewrite coll_of_put_eq.
    repeat split; auto.
    intros other Hne. simpl. apply lookup_insert_ne. congruence.
  - cbv zeta.
    set (w1 := World (colls w) (next_oid w + 1)%N (stdout w)).
    change (coll_of w1 name) with (coll_of w name).
    destruct (first_violation _ _ _); [discriminate|].
    intros [= <- <-]. eexists. rewrite coll_of_put_eq.
    split; [right; split; reflexivity|]. repeat split; auto.
    intros other Hne. simpl. apply lookup_insert_ne. congruence.
Qed.

Lemma insert_one_raises name document w e w' :
  insert_one name document w = (Raise e, w') →
  colls w' = colls w ∧ stdout w' = stdout w.
Proof.
  unfold insert_one, bind, with_id, store_doc, ret.
  destruct (Doc.has "_id" document); cbv zeta.
  - destruct (first_violation _ _ document); [|discriminate].
    intros [= <- <-]. eauto.
  - set (w1 := World (colls w) (next_oid w + 1)%N (stdout w)).
    change (coll_of w1 name) with (coll_of w name).
    destruct (first_violation _ _ _); [|discriminate].
    intros [= <- <-]. eauto.
Qed.

(** X3.  The four create accessors write at most one document, at the end of
    their own collection: the documents stored before stay as they are
    and in place, the indexes and every other collection are untouched.
    A call that returns stored one document, the argument with its
    [_id], and hands that [_id] back; a call that raises stored
    nothing. *)
Theorem create_accessors_only_append (document : doc) (w : world) :
  let appends (name : string) (run : M pyval) :=
    ∃ added,
      c_docs (coll_of (run w).2 name) = c_docs (coll_of w name) ++ added
      ∧ c_indexes (coll_of (run w).2 name) = c_indexes (coll_of w name)
      ∧ (∀ other, other ≠ name →
           colls (run w).2 !! other = colls w !! other)
      ∧ (∀ r, (run w).1 = Return r →
           ∃ d, added = [d]
             ∧ r = PyInsertOneResult (Doc.get_or_null "_id" d)
             ∧ ∀ f, f ≠ "_id" → Doc.get f d = Doc.get f document)
      ∧ (∀ e, (run w).1 = Raise e → added = []) in
  appends "users" (add_student_user document)
  ∧ appends "courses" (create_course document)
  ∧ appends "enrollments" (enroll_student document)
  ∧ appends "lessons" (add_lesson_to_course document).
Proof.
  assert (∀ name,
    ∃ added,
      c_docs (coll_of (insert_one name document w).2 name)
      = c_docs (coll_of w name) ++ added
      ∧ c_indexes (coll_of (insert_one name document w).2 name)
        = c_indexes (coll_of w name)
      ∧ (∀ other, other ≠ name →
           colls (insert_one name document w).2 !! other = colls w !! other)
      ∧ (∀ r, (insert_one name document w).1 = Return r →
           ∃ d, added = [d]
             ∧ r = PyInsertOneResult (Doc.get_or_null "_id" d)
             ∧ ∀ f, f ≠ "_id" → Doc.get f d = Doc.get f document)
      ∧ (∀ e, (insert_one name document w).1 = Raise e → added = [])) as H.
  { intros name. destruct (insert_one name document w) as [[r|e] w'] eqn:E.
    - destruct (insert_one_returns _ _ _ _ _ E) as (d & Hd & -> & Hc & Ho).
      exists [d]. cbn [fst snd]. rewrite Hc. cbn [c_docs c_indexes].
      repeat split; auto; [|discriminate].
      intros r [= <-]. exists d. repeat split; auto.
      intros f Hf. destruct Hd as [->|[_ ->]]; [reflexivity|].
      apply get_cons_ne. congruence.
    - destruct (insert_one_raises _ _ _ _ _ E) as (Hc & _).
      exists []. cbn [fst snd]. unfold coll_of. rewrite Hc, app_nil_r.
      repeat split; auto. discriminate. }
  cbv zeta. repeat split; apply H.
Qed.

(** X4.  Insert then read.  After [add_student_user] returned, the active
    students are those found before, in the same order, followed by the
    new user when it is an active student; a user of another role or an
    inactive one does not change what is read. *)
Theorem added_student_is_read_back (user : doc) (w w' : world) (r : pyval) :
  add_student_user user w = (Return r, w') →
  ∃ before d,
    get_active_students w = (Return before, w)
    ∧ r = PyInsertOneResult (Doc.get_or_null "_id" d)
    ∧ (∀ f, f ≠ "_id" → Doc.get f d = Doc.get f user)
    ∧ get_active_students w'
      = (Return (before ++ (if active_student user then [d] else [])), w').
Proof.
  intros Hrun. unfold add_student_user in Hrun.
  destruct (insert_one_returns _ _ _ _ _ Hrun) as (d & Hd & -> & Hc & _).
  exists (filter active_student (c_docs (coll_of w "users"))), d.
  assert (∀ f, f ≠ "_id" → Doc.get f d = Doc.get f user) as Hf.
  { intros f Hf. destruct Hd as [->|[_ ->]]; [reflexivity|].
    apply get_cons_ne. congruence. }
  repeat split; auto.
  unfold get_active_students, find_all. rewrite Hc. cbn [c_docs].
  rewrite filter_app. do 3 f_equal.
  assert (active_student d = active_student user) as Ha.
  { unfold active_student, matches. simpl.
    rewrite !Hf by discriminate. reflexivity. }
  rewrite filter_cons, filter_nil.
  fold (active_student d). rewrite Ha.
  destruct (active_student user); reflexivity.
Qed.

Lemma inactive_not_active d :
  active_student (Doc.set "isActive" (VBool false) d) = false.
Proof.
  unfold active_student, matches. simpl.
  rewrite get_set_eq. simpl. apply andb_false_r.
Qed.

(** X5.  Deactivate then read.  Every active student found after
    [soft_delete_user] was found before it.  When the call returned and
    the identifier selects at most one stored user, no active student
    found afterwards is selected by the identifier. *)
Theorem soft_deleted_user_is_not_read (user_id : value) (w : world) :
  let w' := (soft_delete_user user_id w).2 in
  let selected u := field_eq user_id (Doc.get "userId" u) in
  ∃ before after,
    get_active_students w = (Return before, w)
    ∧ get_active_students w' = (Return after, w')
    ∧ (∀ d, d ∈ after → d ∈ before)
    ∧ (∀ r, (soft_delete_user user_id w).1 = Return r →
       (∀ i j a b, c_docs (coll_of w "users") !! i = Some a →
                   c_docs (coll_of w "users") !! j = Some b →
                   selected a = true → selected b = true → i = j) →
       ∀ d, d ∈ after → selected d = false).
Proof.
  intros w' selected. subst w'.
  exists (filter active_student (c_docs (coll_of w "users"))),
         (filter active_student
            (c_docs (coll_of (soft_delete_user user_id w).2 "users"))).
  split; [reflexivity|]. split; [reflexivity|].
  assert (∀ v, matches [("userId", CEq user_id)] v = selected v) as Hsel.
  { intros v. unfold matches. simpl. apply andb_true_r. }
  unfold soft_delete_user. rewrite update_one_is_with.
  destruct (update_one_with_cases "users" [("userId", CEq user_id)]
              (λ d, Return (apply_set [("isActive", VBool false)] d)) w)
    as [[Hnone H]|[[e H]|(i & u & u' & Hi & Hu & Hm & Hc & _ & _ & H)]];
    rewrite H; cbn [fst snd].
  - split; [auto|]. intros r _ _ d [_ Hd]%list_elem_of_filter.
    rewrite <- Hsel. apply find_index_None with (d := d) in Hnone; auto.
  - split; [auto|]. intros r [=].
  - injection Hc as <-. unfold apply_set. simpl fold_left.
    rewrite coll_of_put_eq. cbn [c_docs].
    set (users := c_docs (coll_of w "users")) in *.
    assert (∀ d, d ∈ filter active_student
                       (<[i := Doc.set "isActive" (VBool false) u]> users) →
                 ∃ j, j ≠ i ∧ users !! j = Some d ∧ active_student d = true)
      as Hkept.
    { intros d [Ha Hd]%list_elem_of_filter. apply Is_true_true in Ha.
      apply list_elem_of_lookup in Hd as [j Hj].
      destruct (decide (j = i)) as [->|Hne].
      - rewrite list_lookup_insert_eq in Hj by (eapply lookup_lt_Some, Hu).
        injection Hj as <-. rewrite inactive_not_active in Ha. discriminate.
      - rewrite list_lookup_insert_ne in Hj by congruence. eauto. }
    split.
    + intros d Hd. destruct (Hkept d Hd) as (j & _ & Hj & Ha).
      apply list_elem_of_filter. split; [apply Is_true_true, Ha|].
      eapply list_elem_of_lookup_2, Hj.
    + intros r _ Hone d Hd. destruct (Hkept d Hd) as (j & Hne & Hj & _).
      destruct (selected d) eqn:Hs; [|reflexivity].
      exfalso. apply Hne. apply (Hone j i d u Hj Hu Hs).
      rewrite <- Hsel. exact Hm.
Qed.

Lemma Qc_le_compare (x y : Qc) : (x <= y)%Qc ↔ (x ?= y)%Qc ≠ Gt.
Proof. exact (Qcle_alt x y). Qed.

Lemma in_price_range c p :
  Doc.get "price" c = Some (VNum p) →
  matches [("price", CGte (num 50)); ("price", CLte (num 200))] c = true
  ↔ (Q2Qc 50 <= p)%Qc ∧ (p <= Q2Qc 200)%Qc.
Proof.
  intros Hp. unfold matches. simpl. rewrite Hp. simpl.
  unfold or_element, in_range. simpl. rewrite !orb_false_r, andb_true_r.
  unfold num. change (Q2Qc (inject_Z 50)) with (Q2Qc 50).
  change (Q2Qc (inject_Z 200)) with (Q2Qc 200).
  pose proof (Qc_ge_compare p (Q2Qc 50)) as Hlo.
  pose proof (Qc_le_compare p (Q2Qc 200)) as Hhi.
  rewrite andb_true_iff.
  destruct (p ?= Q2Qc 50)%Qc, (p ?= Q2Qc 200)%Qc; simpl; split;
    try (intros [? ?]; discriminate);
    try (intros _; split; [apply Hlo | apply Hhi]; discriminate);
    try (intros [H1 H2]; split; reflexivity);
    intros [H1 H2];
    try (apply Hlo in H1; congruence); try (apply Hhi in H2; congruence).
Qed.

(** X6.  The price-range read returns stored courses in stored order.  A
    course with a numeric price is returned exactly when the price lies
    between 50 and 200, both bounds included; a course without a price,
    or with a price that is neither a number nor an array, is never
    returned. *)
Theorem find_courses_in_price_range_bounds (w : world) :
  ∃ res, find_courses_in_price_range w = (Return res, w)
    ∧ res `sublist_of` c_docs (coll_of w "courses")
    ∧ (∀ c p, Doc.get "price" c = Some (VNum p) →
         (c ∈ res ↔ c ∈ c_docs (coll_of w "courses")
                    ∧ (Q2Qc 50 <= p)%Qc ∧ (p <= Q2Qc 200)%Qc))
    ∧ (∀ c, c ∈ res →
         ∃ v, Doc.get "price" c = Some v
              ∧ (is_array v = true ∨ ∃ p, v = VNum p)).
Proof.
  eexists. split; [reflexivity|]. split; [apply sublist_filter|]. split.
  - intros c p Hp. rewrite list_elem_of_filter.
    rewrite <- (in_price_range c p Hp). split.
    + intros [Hm Hc]. split; [exact Hc | apply Is_true_true, Hm].
    + intros [Hc Hm]. split; [apply Is_true_true, Hm | exact Hc].
  - intros c [Hm _]%list_elem_of_filter. apply Is_true_true in Hm.
    unfold matches in Hm. simpl in Hm. apply andb_true_iff in Hm as [Hm _].
    destruct (Doc.get "price" c) as [v|]; [|discriminate].
    exists v. split; [reflexivity|].
    destruct v; simpl in Hm; try discriminate; eauto.
Qed.

End Reads.

(** ** Deleting, and the counting queries *)

Section DeletesAndCounts.
Import Eduhub.
Context {arithmetic : Arithmetic}.

Lemma delete_one_cases name q w :
  (find_index q (c_docs (coll_of w name)) = None
   ∧ delete_one name q w = (Return {| deleted_count := 0 |}, w))
  ∨ ∃ i d,
      find_index q (c_docs (coll_of w name)) = Some i
      ∧ c_docs (coll_of w name) !! i = Some d
      ∧ matches q d = true
      ∧ delete_one name q w
        = (Return {| deleted_count := 1 |},
           put_coll name (Coll (delete i (c_docs (coll_of w name)))
                               (c_indexes (coll_of w name))) w).
Proof.
  unfold delete_one. cbv zeta.
  destruct (find_index q (c_docs (coll_of w name))) as [i|] eqn:Hi;
    [|left; auto].
  destruct (find_index_Some _ _ _ Hi) as (d & Hd & Hm).
  right. exists i, d. auto.
Qed.

Lemma ObjectId_length s oid : ObjectId s = Return oid → String.length s = 24.
Proof.
  unfold ObjectId. destruct (Nat.eqb_spec (String.length s) 24); [auto|].
  discriminate.
Qed.

Lemma ObjectId_is_oid s v : ObjectId s = Return v → ∃ n, v = VOid n.
Proof.
  unfold ObjectId. destruct (Nat.eqb _ _); [|discriminate].
  destruct (parse_hex s 0); [|discriminate]. intros [= <-]. eauto.
Qed.

Lemma pad3_length n : (n < 1000)%N → String.length (pad3 n) = 3.
Proof.
  intros Hn.
  assert (forallb (λ k, Nat.eqb (String.length (pad3 (N.of_nat k))) 3)
                  (seq 0 1000) = true) as Hall by (vm_compute; reflexivity).
  rewrite forallb_forall in Hall.
  specialize (Hall (N.to_nat n)). rewrite N2Nat.id in Hall.
  apply Nat.eqb_eq, Hall, in_seq. lia.
Qed.

Lemma length_append (a b : string) :
  String.length (a +:+ b) = String.length a + String.length b.
Proof. induction a as [|c a IH]; simpl; [reflexivity|]. rewrite IH. reflexivity. Qed.

Lemma ident_length prefix i :
  i < 999 → String.length (ident prefix i) = String.length prefix + 3.
Proof.
  intros Hi. unfold ident. rewrite length_append, pad3_length; [reflexivity|].
  lia.
Qed.

(** X7.  The identifiers that the generator gives to enrollments, lessons and
    submissions (["e001"], ["l001"], ["s001"], ...) are not ObjectIds: the
    accessors that take an identifier raise [InvalidId] on each of them
    and leave the world as it is. *)
Theorem generated_identifiers_are_refused (i : nat) (grade : value) (w : world) :
  i < 999 →
  (∃ msg, delete_enrollment (ident "e" i) w = (Raise (InvalidId msg), w))
  ∧ (∃ msg, remove_lesson (ident "l" i) w = (Raise (InvalidId msg), w))
  ∧ (∃ msg, update_assignment_grade (ident "s" i) grade w
            = (Raise (InvalidId msg), w)).
Proof.
  intros Hi.
  assert (∀ prefix, String.length prefix = 1 →
            ObjectId (ident prefix i) = Raise (InvalidId "not a valid ObjectId"))
    as Hbad.
  { intros prefix Hp. unfold ObjectId.
    rewrite ident_length, Hp by exact Hi. reflexivity. }
  unfold delete_enrollment, remove_lesson, update_assignment_grade, bind.
  rewrite !Hbad by reflexivity. repeat split; eexists; reflexivity.
Qed.

Lemma filter_delete_length {A} (p : A → bool) (l : list A) i x :
  l !! i = Some x →
  length (filter (λ y, p y) l)
  = length (filter (λ y, p y) (delete i l)) + (if p x then 1 else 0).
Proof.
  revert i. induction l as [|y l IH]; intros i Hx; [discriminate|].
  destruct i as [|i]; simpl in Hx.
  - injection Hx as ->. simpl. rewrite filter_cons.
    destruct (decide (p x)) as [H|H].
    + apply Is_true_true in H. rewrite H. simpl. lia.
    + apply Is_true_false in H. rewrite H. lia.
  - simpl. rewrite !filter_cons. specialize (IH i Hx).
    destruct (decide (p y)); simpl; lia.
Qed.

(** The groups of a count by field. *)
Lemma count_by_field f name docs :
  ∃ res, run_group (EField f) [(name, ASum (ELit (num 1)))] docs = Return res
    ∧ NoDup (map (Doc.get_or_null "_id") res)
    ∧ ∀ k, find_group k res =
        match with_key f k docs with
        | [] => None
        | ms => Some [("_id", k); (name, count (length ms))]
        end.
Proof.
  destruct (run_group_one (EField f) name (ASum (ELit (num 1))) docs
              (Doc.get_or_null f) (λ _, Some (num 1)))
    as (res & Hres & Hnd & Hk); [reflexivity|].
  exists res. repeat split; auto.
  intros k. rewrite Hk. unfold with_key.
  destruct (filter _ docs) as [|e es]; [reflexivity|].
  rewrite acc_sum_final, total_ones. reflexivity.
Qed.

Lemma filter_delete_false {A} (p : A → bool) (l : list A) i x :
  l !! i = Some x → p x = false →
  filter (λ y, p y) (delete i l) = filter (λ y, p y) l.
Proof.
  revert i. induction l as [|y l IH]; intros i Hx Hp; [discriminate|].
  destruct i as [|i]; simpl in Hx.
  - injection Hx as ->. simpl. rewrite filter_cons_False; [reflexivity|].
    rewrite Hp. exact id.
  - simpl. rewrite !filter_cons, (IH i Hx Hp). reflexivity.
Qed.

(** X8.  Delete then count.  When [delete_enrollment] removed an enrollment,
    the count of the course of that enrollment is one less than before
    (its group is gone when it was the last enrollment of the course) and
    the group of every other course is what it was; the other collections
    are untouched. *)
Theorem delete_enrollment_lowers_one_count
    (enrollment_id : string) (w w' : world) :
  delete_enrollment enrollment_id w = (Return {| deleted_count := 1 |}, w') →
  ∃ oid e course before after n,
    ObjectId enrollment_id = Return oid
    ∧ e ∈ c_docs (coll_of w "enrollments")
    ∧ field_eq oid (Doc.get "_id" e) = true
    ∧ course = Doc.get_or_null "courseId" e
    ∧ total_enrollments_per_course w = (Return before, w)
    ∧ total_enrollments_per_course w' = (Return after, w')
    ∧ find_group course before
      = Some [("_id", course); ("totalEnrollments", count (S n))]
    ∧ find_group course after
      = match n with
        | 0 => None
        | _ => Some [("_id", course); ("totalEnrollments", count n)]
        end
    ∧ (∀ k, k ≠ course → find_group k after = find_group k before)
    ∧ (∀ name, name ≠ "enrollments" → colls w' !! name = colls w !! name).
Proof.
  unfold delete_enrollment, bind.
  destruct (ObjectId enrollment_id) as [oid|err] eqn:Hoid; [|discriminate].
  destruct (delete_one_cases "enrollments" [("_id", CEq oid)] w)
    as [[_ H]|(i & e & Hi & He & Hm & H)]; rewrite H; [discriminate|].
  intros [= <-].
  set (docs := c_docs (coll_of w "enrollments")) in *.
  set (course := Doc.get_or_null "courseId" e).
  destruct (count_by_field "courseId" "totalEnrollments" docs)
    as (before & Hb & _ & Kb).
  destruct (count_by_field "courseId" "totalEnrollments" (delete i docs))
    as (after & Ha & _ & Ka).
  pose proof (filter_delete_length
                (λ d, value_eqb (Doc.get_or_null "courseId" d) course)
                docs i e He) as Hlen.
  cbv beta in Hlen. fold course in Hlen. rewrite value_eqb_refl in Hlen.
  fold (with_key "courseId" course docs) in Hlen.
  fold (with_key "courseId" course (delete i docs)) in Hlen.
  exists oid, e, course, before, after,
    (length (with_key "courseId" course (delete i docs))).
  split; [reflexivity|].
  split; [eapply list_elem_of_lookup_2, He|].
  split; [unfold matches in Hm; simpl in Hm; rewrite andb_true_r in Hm; exact Hm|].
  split; [reflexivity|].
  split; [unfold total_enrollments_per_course, aggregate;
          cbn [run_pipeline run_stage]; fold docs; rewrite Hb; reflexivity|].
  split; [unfold total_enrollments_per_course, aggregate;
          cbn [run_pipeline run_stage]; rewrite coll_of_put_eq; cbn [c_docs];
          rewrite Ha; reflexivity|].
  split; [|split; [|split]].
  - rewrite Kb.
    destruct (with_key "courseId" course docs) as [|m ms];
      [simpl in Hlen; lia|].
    rewrite Hlen, Nat.add_1_r. reflexivity.
  - rewrite Ka.
    destruct (with_key "courseId" course (delete i docs)); reflexivity.
  - intros k Hk. rewrite Ka, Kb. unfold with_key.
    rewrite (filter_delete_false
               (λ d, value_eqb (Doc.get_or_null "courseId" d) k) docs i e He);
      [reflexivity|].
    apply value_eqb_neq. fold course. congruence.
  - intros name Hne. simpl. apply lookup_insert_ne. congruence.
Qed.

Lemma ones_total fed :
  forallb (Qc_eqb (Q2Qc 1)) fed = true → total fed = Qc_of_nat (length fed).
Proof.
  intros Hones.
  assert (fed = omap number_of (map (λ _ : Qc, Some (num 1)) fed)) as ->.
  { induction fed as [|x fed IH]; [reflexivity|].
    cbn [forallb] in Hones. apply andb_prop in Hones as [Hx Hfed].
    apply Qc_eqb_eq in Hx as <-.
    cbn [map omap list_omap number_of num]. f_equal. apply IH, Hfed. }
  rewrite total_ones, length_omap_ones. reflexivity.
Qed.

Lemma table_add_one k (t : table) :
  Forall (λ g, is_Some (running_count g)) t →
  Forall (λ g, is_Some (running_count g))
         (table_add [StSum []] (k, [Some (num 1)]) t)
  ∧ count_states (table_add [StSum []] (k, [Some (num 1)]) t)
    = S (count_states t).
Proof.
  unfold count_states. induction t as [|[k' sts] t IH]; intros Ht.
  - split; [repeat constructor; eexists; reflexivity | reflexivity].
  - apply Forall_cons in Ht as [[n Hn] Ht].
    unfold running_count in Hn. cbn [snd] in Hn.
    destruct sts as [|[fed|] [|]]; try discriminate.
    destruct (forallb (Qc_eqb (Q2Qc 1)) fed) eqn:Hones; [|discriminate].
    injection Hn as <-.
    assert (running_count (k', [StSum fed]) = Some (length fed)) as Hold
      by (unfold running_count; cbn [snd]; rewrite Hones; reflexivity).
    cbn [table_add fst snd]. destruct (value_eqb k' k).
    + assert (running_count (k', feed_all [StSum fed] [Some (num 1)])
              = Some (S (length fed))) as Hnew.
      { unfold running_count. cbn [snd feed_all zip_with acc_feed num].
        rewrite forallb_app, Hones. cbn [forallb andb].
        rewrite length_app, Nat.add_1_r. reflexivity. }
      split.
      * constructor; [eexists; exact Hnew | exact Ht].
      * cbn [omap list_omap]. rewrite Hnew, Hold. reflexivity.
    + destruct (IH Ht) as [IH1 IH2]. split.
      * constructor; [eexists; exact Hold | exact IH1].
      * cbn [omap list_omap]. rewrite Hold. cbn [foldr].
        fold (omap running_count
                (table_add [StSum []] (k, [Some (num 1)]) t)).
        fold (omap running_count t).
        rewrite IH2. lia.
Qed.

Lemma fold_table_ones (keys : list value) (t : table) :
  Forall (λ g, is_Some (running_count g)) t →
  Forall (λ g, is_Some (running_count g))
         (fold_left (λ t (r : row), table_add [StSum []] r t)
                    (map (λ k, (k, [Some (num 1)])) keys) t)
  ∧ count_states (fold_left (λ t (r : row), table_add [StSum []] r t)
                            (map (λ k, (k, [Some (num 1)])) keys) t)
    = length keys + count_states t.
Proof.
  revert t. induction keys as [|k keys IH]; intros t Ht.
  - split; [exact Ht | reflexivity].
  - cbn [map fold_left]. destruct (table_add_one k t Ht) as [H1 H2].
    destruct (IH _ H1) as [H3 H4]. split; [exact H3|].
    rewrite H4, H2. cbn [length]. lia.
Qed.

Lemma Qc_sum_of_nat (l : list nat) :
  Qc_sum (map Qc_of_nat l) = Qc_of_nat (foldr Nat.add 0 l).
Proof.
  induction l as [|n l IH]; [reflexivity|].
  cbn [map foldr]. rewrite Qc_sum_cons, IH. unfold Qc_of_nat.
  rewrite Q2Qc_plus. apply Q2Qc_eq_iff. rewrite <- inject_Z_plus.
  apply inject_Z_injective. lia.
Qed.

Lemma numbers_of_groups name (t : table) :
  name ≠ "_id" → Forall (λ g, is_Some (running_count g)) t →
  numbers name (map (group_doc [name]) t)
  = map Qc_of_nat (omap running_count t).
Proof.
  intros Hn Ht. unfold numbers. induction Ht as [|[k sts] t [n Hc] _ IH];
    [reflexivity|].
  cbn [map omap list_omap]. rewrite Hc.
  unfold running_count in Hc. cbn [snd] in Hc.
  destruct sts as [|[fed|] [|]]; try discriminate.
  destruct (forallb (Qc_eqb (Q2Qc 1)) fed) eqn:Hones; [|discriminate].
  injection Hc as <-.
  unfold group_doc at 1. cbn [fst snd map zip zip_with acc_final].
  rewrite get_cons_ne by congruence. cbn [Doc.get]. rewrite String.eqb_refl.
  cbn [number_of map]. rewrite (ones_total fed Hones). f_equal. exact IH.
Qed.

Lemma count_total f name docs res :
  name ≠ "_id" →
  run_group (EField f) [(name, ASum (ELit (num 1)))] docs = Return res →
  Qc_sum (numbers name res) = Qc_of_nat (length docs).
Proof.
  intros Hn. unfold run_group.
  rewrite (omapM_Return _ (λ d, (Doc.get_or_null f d, [Some (num 1)])))
    by (intros; reflexivity).
  cbn [obind map fst snd acc_init]. intros [= <-].
  rewrite <- (map_map (Doc.get_or_null f) (λ k, (k, [Some (num 1)]))).
  unfold group_rows.
  destruct (fold_table_ones (map (Doc.get_or_null f) docs) [])
    as [H1 H2]; [constructor|].
  rewrite numbers_of_groups by assumption.
  rewrite Qc_sum_of_nat.
  fold (count_states
          (fold_left (λ t (r : row), table_add [StSum []] r t)
             (map (λ k, (k, [Some (num 1)])) (map (Doc.get_or_null f) docs)) [])).
  rewrite H2, length_map. unfold count_states. cbn [omap list_omap foldr].
  f_equal. lia.
Qed.

(** X9.  Every document is counted once.  The per-category course counts add
    up to the number of stored courses and the per-course enrollment
    counts to the number of stored enrollments, a missing key counting
    under [null]; a category has a group exactly when some course carries
    it, holding the number of those courses. *)
Theorem counts_add_up (w : world) :
  (∃ res, courses_per_category w = (Return res, w)
     ∧ Qc_sum (numbers "totalCourses" res)
       = Qc_of_nat (length (c_docs (coll_of w "courses")))
     ∧ NoDup (map (Doc.get_or_null "_id") res)
     ∧ ∀ k, find_group k res =
         match with_key "category" k (c_docs (coll_of w "courses")) with
         | [] => None
         | cs => Some [("_id", k); ("totalCourses", count (length cs))]
         end)
  ∧ (∃ res, total_enrollments_per_course w = (Return res, w)
       ∧ Qc_sum (numbers "totalEnrollments" res)
         = Qc_of_nat (length (c_docs (coll_of w "enrollments")))).
Proof.
  split.
  - unfold courses_per_category, aggregate. cbn [run_pipeline run_stage].
    destruct (count_by_field "category" "totalCourses"
                (c_docs (coll_of w "courses"))) as (res & Hres & Hnd & Hk).
    exists res. rewrite Hres. repeat split; auto.
    apply (count_total "category"); [discriminate | exact Hres].
  - unfold total_enrollments_per_course, aggregate.
    cbn [run_pipeline run_stage].
    destruct (count_by_field "courseId" "totalEnrollments"
                (c_docs (coll_of w "enrollments"))) as (res & Hres & _ & _).
    exists res. rewrite Hres. split; [reflexivity|].
    apply (count_total "courseId"); [discriminate | exact Hres].
Qed.

End DeletesAndCounts.

(** ** The joins *)

Section Joins.
Import Eduhub.
Context {arithmetic : Arithmetic}.

Lemma filter_none {A} (p : A → bool) (l : list A) :
  (∀ x, x ∈ l → p x = false) → filter (λ x, p x) l = [].
Proof.
  induction l as [|x l IH]; intros H; [reflexivity|].
  rewrite filter_cons_False by (rewrite (H x) by left; exact id).
  apply IH. intros y Hy. apply H. right. exact Hy.
Qed.

(** Without arrays the join condition is equality of the two values, a
    missing one counting as [null]. *)
Lemma lookup_match_plain lf ff d f :
  is_array (Doc.get_or_null lf d) = false →
  is_array (Doc.get_or_null ff f) = false →
  lookup_match lf ff d f
  = value_eqb (Doc.get_or_null ff f) (Doc.get_or_null lf d).
Proof.
  unfold lookup_match, field_eq, or_element, Doc.get_or_null.
  destruct (Doc.get lf d) as [vc|], (Doc.get ff f) as [ve|];
    simpl; intros Hc He.
  - destruct vc; try discriminate; destruct ve; try discriminate;
      rewrite ?orb_false_r; reflexivity.
  - destruct vc; try discriminate; reflexivity.
  - destruct ve; try discriminate; rewrite ?orb_false_r; reflexivity.
  - reflexivity.
Qed.

(** Without arrays an equality filter selects by equality of values. *)
Lemma matches_eq_plain f v d :
  is_array (Doc.get_or_null f d) = false →
  matches [(f, CEq v)] d = value_eqb (Doc.get_or_null f d) v.
Proof.
  unfold matches, Doc.get_or_null. cbn [forallb match_cond fst snd].
  rewrite andb_true_r. unfold field_eq, or_element.
  destruct (Doc.get f d) as [x|]; [|reflexivity].
  intros Hx. destruct x; try discriminate; rewrite ?orb_false_r;
    reflexivity.
Qed.

Lemma run_lookup_joined foreign lf ff as_ d :
  joined_to foreign lf ff as_ d (run_lookup foreign lf ff as_ d).
Proof.
  unfold joined_to, run_lookup. split.
  - intros f Hf. apply get_set_ne. congruence.
  - apply get_set_eq.
Qed.

Lemma match_then_lookup w q from lf ff as_ docs :
  ∃ res, run_pipeline w [SMatch q; SLookup from lf ff as_] docs = Return res
    ∧ Forall2 (joined_to (c_docs (coll_of w from)) lf ff as_)
              (filter (matches q) docs) res.
Proof.
  eexists. split; [reflexivity|].
  induction (filter (matches q) docs) as [|d l IH]; constructor; auto.
  apply run_lookup_joined.
Qed.

(** X10.  [get_course_with_instructor] never raises nor writes.  It returns one
    document for each stored course that the identifier selects, in
    stored order: the course with all its fields, and under [instructor]
    the users that the join finds for its [instructorId].  A course whose
    instructor is no stored user comes back with an empty list. *)
Theorem get_course_with_instructor_joins (course_id : value) (w : world) :
  ∃ res, get_course_with_instructor course_id w = (Return res, w)
    ∧ Forall2 (joined_to (c_docs (coll_of w "users"))
                 "instructorId" "userId" "instructor")
        (filter (matches [("courseId", CEq course_id)])
                (c_docs (coll_of w "courses")))
        res
    ∧ ∀ d, d ∈ res →
        (∀ u, u ∈ c_docs (coll_of w "users") →
              Doc.get_or_null "userId" u ≠ Doc.get_or_null "instructorId" d) →
        is_array (Doc.get_or_null "instructorId" d) = false →
        (∀ u, u ∈ c_docs (coll_of w "users") →
              is_array (Doc.get_or_null "userId" u) = false) →
        Doc.get "instructor" d = Some (VArr []).
Proof.
  unfold get_course_with_instructor, aggregate.
  destruct (match_then_lookup w [("courseId", CEq course_id)] "users"
              "instructorId" "userId" "instructor"
              (c_docs (coll_of w "courses"))) as (res & -> & Hres).
  exists res. split; [reflexivity|]. split; [exact Hres|].
  intros d Hd Hnone Hid Hus.
  apply list_elem_of_lookup in Hd as [i Hi].
  destruct (Forall2_lookup_r _ _ _ _ _ Hres Hi) as (c & _ & Hsame & Hjoin).
  rewrite Hjoin.
  assert (Doc.get_or_null "instructorId" d = Doc.get_or_null "instructorId" c)
    as Hins by (unfold Doc.get_or_null; rewrite Hsame by discriminate; reflexivity).
  rewrite Hins in Hnone, Hid.
  rewrite (filter_none (lookup_match "instructorId" "userId" c));
    [reflexivity|].
  intros u Hu. rewrite lookup_match_plain by auto.
  apply value_eqb_neq. apply Hnone, Hu.
Qed.

(** X11.  Two queries on one collection agree.  [get_students_in_course]
    returns one document per enrollment selected by the course
    identifier, each the enrollment with the joined users under
    [student]; when no stored [courseId] is an array, their number is the
    count that the per-course count query reports for that course, and
    the list is empty exactly when that query has no group for it. *)
Theorem get_students_in_course_agrees_with_count
    (course_id : value) (w : world) :
  (∀ e, e ∈ c_docs (coll_of w "enrollments") →
        is_array (Doc.get_or_null "courseId" e) = false) →
  ∃ res counts,
    get_students_in_course course_id w = (Return res, w)
    ∧ Forall2 (joined_to (c_docs (coll_of w "users"))
                 "studentId" "userId" "student")
        (with_key "courseId" course_id (c_docs (coll_of w "enrollments")))
        res
    ∧ total_enrollments_per_course w = (Return counts, w)
    ∧ find_group course_id counts
      = match res with
        | [] => None
        | _ => Some [ ("_id", course_id);
                      ("totalEnrollments", count (length res)) ]
        end.
Proof.
  intros Hplain.
  unfold get_students_in_course, total_enrollments_per_course, aggregate.
  destruct (match_then_lookup w [("courseId", CEq course_id)] "users"
              "studentId" "userId" "student"
              (c_docs (coll_of w "enrollments"))) as (res & -> & Hres).
  cbn [run_pipeline run_stage].
  destruct (count_by_field "courseId" "totalEnrollments"
              (c_docs (coll_of w "enrollments"))) as (counts & -> & _ & Hk).
  exists res, counts.
  assert (filter (matches [("courseId", CEq course_id)])
                 (c_docs (coll_of w "enrollments"))
          = with_key "courseId" course_id (c_docs (coll_of w "enrollments")))
    as Hsel.
  { unfold with_key.
    apply (filter_ext_in (matches [("courseId", CEq course_id)])).
    intros e He. apply matches_eq_plain, Hplain, He. }
  rewrite Hsel in Hres.
  repeat split; auto.
  rewrite Hk. apply Forall2_length in Hres.
  destruct (with_key "courseId" course_id _) as [|e es], res as [|d ds];
    try discriminate; [reflexivity|].
  rewrite Hres. reflexivity.
Qed.

(** X12.  A read and a count that agree.  When no stored category is an array,
    [get_courses_by_category] returns exactly the stored courses whose
    category is the requested one (a missing category reading as
    [null]), in stored order; their number is the count that the
    per-category query reports for it, and the list is empty exactly
    when that query has no group for the category. *)
Theorem get_courses_by_category_agrees_with_count
    (category : value) (w : world) :
  (∀ c, c ∈ c_docs (coll_of w "courses") →
        is_array (Doc.get_or_null "category" c) = false) →
  ∃ res counts,
    get_courses_by_category category w = (Return res, w)
    ∧ res = with_key "category" category (c_docs (coll_of w "courses"))
    ∧ courses_per_category w = (Return counts, w)
    ∧ find_group category counts
      = match res with
        | [] => None
        | _ => Some [ ("_id", category);
                      ("totalCourses", count (length res)) ]
        end.
Proof.
  intros Hplain.
  unfold get_courses_by_category, find_all, courses_per_category, aggregate.
  cbn [run_pipeline run_stage].
  destruct (count_by_field "category" "totalCourses"
              (c_docs (coll_of w "courses"))) as (counts & -> & _ & Hk).
  assert (filter (matches [("category", CEq category)])
                 (c_docs (coll_of w "courses"))
          = with_key "category" category (c_docs (coll_of w "courses")))
    as ->.
  { unfold with_key.
    apply (filter_ext_in (matches [("category", CEq category)])).
    intros c Hc. apply matches_eq_plain, Hplain, Hc. }
  eexists _, counts. split; [reflexivity|]. split; [reflexivity|].
  split; [reflexivity|]. rewrite Hk.
  destruct (with_key "category" category _); reflexivity.
Qed.

End Joins.

(** ** Students per instructor, and averages *)

Section MoreGroups.
Import Eduhub.
Context {arithmetic : Arithmetic}.

Lemma joined_size_of w c :
  joined_size "course_enrollments"
    (run_lookup (c_docs (coll_of w "enrollments")) "courseId" "courseId"
       "course_enrollments" c)
  = Some (VNum (Qc_of_nat (length (enrolled_in w c)))).
Proof.
  unfold joined_size, run_lookup. rewrite get_set_eq, length_map. reflexivity.
Qed.

Lemma joined_sizes w cs :
  omap number_of
    (map (joined_size "course_enrollments")
       (map (run_lookup (c_docs (coll_of w "enrollments")) "courseId"
               "courseId" "course_enrollments") cs))
  = map (λ c, Qc_of_nat (length (enrolled_in w c))) cs.
Proof.
  induction cs as [|c cs IH]; [reflexivity|].
  cbn [map omap list_omap]. rewrite joined_size_of. cbn [number_of].
  f_equal. exact IH.
Qed.

Lemma integers_of_nat {A} (f : A → nat) (l : list A) :
  forallb is_integer (map (λ x, Qc_of_nat (f x)) l) = true.
Proof.
  induction l as [|x l IH]; [reflexivity|].
  cbn [map forallb]. unfold Qc_of_nat at 1. rewrite is_integer_inject.
  exact IH.
Qed.

(** X13.  The students-per-instructor query never raises.  For every key it
    has the group of that key exactly when some course has it as
    [instructorId], and the group holds the sum, over those courses, of
    the number of enrollments joined to the course: enrollments are
    counted, so a student enrolled in two courses of an instructor counts
    twice. *)
Theorem total_students_per_instructor_sums (w : world) :
  ∃ res, total_students_per_instructor w = (Return res, w)
    ∧ NoDup (map (Doc.get_or_null "_id") res)
    ∧ ∀ k, find_group k res =
        match with_key "instructorId" k (c_docs (coll_of w "courses")) with
        | [] => None
        | cs =>
            Some [ ("_id", k);
                   ("totalStudents",
                    VNum (Qc_sum (map (λ c, Qc_of_nat (length (enrolled_in w c)))
                                      cs))) ]
        end.
Proof.
  unfold total_students_per_instructor, aggregate.
  cbn [run_pipeline run_stage obind].
  set (join := run_lookup (c_docs (coll_of w "enrollments")) "courseId"
                 "courseId" "course_enrollments").
  destruct (run_group_one (EField "instructorId") "totalStudents"
              (ASum (ESize (EField "course_enrollments")))
              (map join (c_docs (coll_of w "courses")))
              (Doc.get_or_null "instructorId")
              (joined_size "course_enrollments"))
    as (res & -> & Hnd & Hk).
  { intros d [c [-> _]]%list_elem_of_fmap.
    unfold group_row. cbn [eval obind omapM acc_operand snd].
    unfold joined_size, join, run_lookup. rewrite !get_set_eq.
    cbn [obind]. reflexivity. }
  exists res. repeat split; auto.
  intros k. rewrite Hk.
  rewrite (filter_map_comm
             (λ d, value_eqb (Doc.get_or_null "instructorId" d) k)
             (λ c, value_eqb (Doc.get_or_null "instructorId" c) k)); cycle 1.
  { intros c. unfold join, run_lookup.
    rewrite get_or_null_set_ne by discriminate. reflexivity. }
  unfold with_key.
  destruct (filter _ (c_docs (coll_of w "courses"))) as [|c cs]; [reflexivity|].
  change (map join (c :: cs)) with (join c :: map join cs).
  cbv iota. change (join c :: map join cs) with (map join (c :: cs)).
  rewrite acc_sum_final. unfold join. rewrite joined_sizes.
  rewrite total_integers by apply integers_of_nat. reflexivity.
Qed.

(** X14.  The top students are taken from the per-student averages: the
    average query has one group [{_id, averageGrade}] per student key
    with the mean of the numeric grades as the server computes it ([null]
    without any), and the top-students query returns exactly the groups
    among them that pass the threshold, reordered. *)
Theorem top_students_come_from_averages (w : world) :
  ∃ averages top,
    average_grade_per_student w = (Return averages, w)
    ∧ top_performing_students w = (Return top, w)
    ∧ NoDup (map (Doc.get_or_null "_id") averages)
    ∧ (∀ k, find_group k averages =
         match with_key "studentId" k (c_docs (coll_of w "submissions")) with
         | [] => None
         | ss => Some [("_id", k); ("averageGrade", mean_value (numbers "grade" ss))]
         end)
    ∧ top ≡ₚ filter (matches [("averageGrade", CGte (num 90))]) averages
    ∧ length top ≤ length averages.
Proof.
  unfold average_grade_per_student, top_performing_students, aggregate.
  cbn [run_pipeline run_stage].
  destruct (average_by_field "studentId" "averageGrade" "grade"
              (c_docs (coll_of w "submissions"))) as (avgs & -> & Hnd & Hk).
  cbn [obind]. eexists avgs, _. repeat split; auto.
  - apply run_sort_perm.
  - rewrite run_sort_perm. apply length_filter.
Qed.

End MoreGroups.

(** ** Index declarations and tags *)

Section IndexesAndTags.
Import Eduhub.

Lemma only_indexes_refl w : only_indexes_added w w.
Proof.
  repeat split; auto. exists []. rewrite app_nil_r. reflexivity.
Qed.

Lemma only_indexes_trans w1 w2 w3 :
  only_indexes_added w1 w2 → only_indexes_added w2 w3 →
  only_indexes_added w1 w3.
Proof.
  intros (Ha & Hb & Hc) (Ha' & Hb' & Hc'). split; [congruence|].
  split; [congruence|]. intros name.
  destruct (Hc name) as [Hd [x Hx]], (Hc' name) as [Hd' [y Hy]].
  split; [congruence|]. exists (x ++ y). rewrite Hy, Hx, app_assoc.
  reflexivity.
Qed.

Lemma create_index_only_indexes name keys unique w :
  only_indexes_added w (create_index name keys unique w).2.
Proof.
  unfold create_index. cbv zeta.
  destruct (find _ (c_indexes (coll_of w name))) as [old|].
  - destruct (same_index _ old); apply only_indexes_refl.
  - destruct (unique && _); [apply only_indexes_refl|].
    cbn [snd]. split; [reflexivity|]. split; [reflexivity|].
    intros other. destruct (decide (name = other)) as [<-|Hne].
    + rewrite coll_of_put_eq. cbn [c_docs c_indexes]. eauto.
    + rewrite coll_of_put_ne by exact Hne. split; [reflexivity|].
      exists []. rewrite app_nil_r. reflexivity.
Qed.

Lemma bind_only_indexes {A B} (c : M A) (k : A → M B) w :
  only_indexes_added w (c w).2 →
  (∀ a w1, only_indexes_added w1 (k a w1).2) →
  only_indexes_added w (bind c k w).2.
Proof.
  intros Hc Hk. unfold bind. destruct (c w) as [[a|e] w1]; cbn [snd] in *.
  - eapply only_indexes_trans; [exact Hc | apply Hk].
  - exact Hc.
Qed.

(** X15.  Declaring the indexes never touches a document.  However
    [create_indexes] ends, every collection holds the documents it held,
    each index list is the old one with declarations added at its end,
    and the ObjectId source and the output are unchanged. *)
Theorem create_indexes_keeps_documents (w : world) :
  only_indexes_added w (create_indexes w).2.
Proof.
  unfold create_indexes.
  repeat (apply bind_only_indexes;
          [apply create_index_only_indexes | intros ? ?]).
  apply only_indexes_refl.
Qed.

Lemma existsb_value_eqb v (l : list value) :
  existsb (value_eqb v) l = true ↔ v ∈ l.
Proof.
  rewrite existsb_exists. split.
  - intros (x & Hx & ->%value_eqb_eq). apply list_elem_of_In, Hx.
  - intros H. exists v. split; [apply list_elem_of_In, H | apply value_eqb_refl].
Qed.

(** What [$addToSet] with [$each] appends. *)
Lemma add_each_spec vs arr :
  ∃ extra, add_each vs arr = arr ++ extra
    ∧ NoDup extra
    ∧ (∀ x, x ∈ extra → x ∈ vs ∧ x ∉ arr)
    ∧ (∀ v, v ∈ vs → v ∈ arr ++ extra).
Proof.
  unfold add_each. revert arr. induction vs as [|v vs IH]; intros arr.
  - exists []. rewrite app_nil_r.
    split; [reflexivity|]. split; [constructor|].
    split; intros x Hx; inversion Hx.
  - cbn [fold_left]. destruct (existsb (value_eqb v) arr) eqn:E.
    + apply existsb_value_eqb in E.
      destruct (IH arr) as (extra & -> & Hnd & Hnew & Hall).
      exists extra. split; [reflexivity|]. split; [exact Hnd|]. split.
      * intros x Hx. destruct (Hnew x Hx) as [H1 H2].
        split; [right; exact H1 | exact H2].
      * intros x [->|Hx]%elem_of_cons; [|auto].
        apply elem_of_app. left. exact E.
    + assert (v ∉ arr) as Hv.
      { intros H. apply existsb_value_eqb in H. congruence. }
      destruct (IH (arr ++ [v])) as (extra & -> & Hnd & Hnew & Hall).
      exists (v :: extra). rewrite <- app_assoc. split; [reflexivity|].
      split; [|split].
      * constructor; [|exact Hnd]. intros H. apply Hnew in H as [_ H].
        apply H, elem_of_app. right. left.
      * intros x [->|Hx]%elem_of_cons.
        -- split; [left | exact Hv].
        -- destruct (Hnew x Hx) as [H1 H2]. split; [right; exact H1|].
           intros H. apply H2, elem_of_app. left. exact H.
      * intros x [->|Hx]%elem_of_cons.
        -- apply elem_of_app. right. left.
        -- specialize (Hall x Hx). rewrite <- app_assoc in Hall. exact Hall.
Qed.

Lemma add_each_present vs arr :
  (∀ v, v ∈ vs → v ∈ arr) → add_each vs arr = arr.
Proof.
  unfold add_each. induction vs as [|v vs IH]; intros H; [reflexivity|].
  cbn [fold_left].
  assert (existsb (value_eqb v) arr = true) as ->
    by (apply existsb_value_eqb, H; left).
  apply IH. intros x Hx. apply H. right. exact Hx.
Qed.

Lemma add_each_twice vs arr : add_each vs (add_each vs arr) = add_each vs arr.
Proof.
  apply add_each_present. intros v Hv.
  destruct (add_each_spec vs arr) as (extra & -> & _ & _ & Hall). auto.
Qed.

Lemma add_to_set_twice f vs d d' :
  add_to_set f vs d = Return d' → add_to_set f vs d' = Return d'.
Proof.
  unfold add_to_set.
  destruct (Doc.get f d) as [[| | | | | |l|]|]; try discriminate;
    intros [= <-]; rewrite get_set_eq, add_each_twice, set_set_same;
    reflexivity.
Qed.

Lemma add_to_set_other f vs d d' g :
  add_to_set f vs d = Return d' → f ≠ g → Doc.get g d' = Doc.get g d.
Proof.
  unfold add_to_set.
  destruct (Doc.get f d) as [[| | | | | |l|]|]; try discriminate;
    intros [= <-] Hne; apply get_set_ne, Hne.
Qed.

(** X16.  [add_tags_to_course] that returns with [matched_count] 1 rewrote the
    first course selected by the identifier.  Its tags are the old ones,
    in their order, followed by the requested tags that were not among
    them, each once; every requested tag is now present; every other
    field of the course, every other course and every other collection
    are as before. *)
Theorem add_tags_to_course_appends_new_tags
    (course_id : value) (tags : list value) (w w' : world) (m : N) :
  add_tags_to_course course_id tags w = (Return (PyUpdateResult 1 m), w') →
  let courses := c_docs (coll_of w "courses") in
  let courses' := c_docs (coll_of w' "courses") in
  (∀ name, name ≠ "courses" → colls w' !! name = colls w !! name)
  ∧ ∃ i c c' old extra,
      courses !! i = Some c ∧ courses' !! i = Some c'
      ∧ field_eq course_id (Doc.get "courseId" c) = true
      ∧ (∀ j, j ≠ i → courses' !! j = courses !! j)
      ∧ length courses' = length courses
      ∧ (Doc.get "tags" c = Some (VArr old)
         ∨ (Doc.get "tags" c = None ∧ old = []))
      ∧ Doc.get "tags" c' = Some (VArr (old ++ extra))
      ∧ NoDup extra
      ∧ (∀ x, x ∈ extra → x ∈ tags ∧ x ∉ old)
      ∧ (∀ t, t ∈ tags → t ∈ old ++ extra)
      ∧ (∀ f, f ≠ "tags" → Doc.get f c' = Doc.get f c).
Proof.
  intros Hrun courses courses'. subst courses courses'.
  unfold add_tags_to_course in Hrun.
  destruct (update_one_with_cases "courses" [("courseId", CEq course_id)]
              (add_to_set "tags" tags) w)
    as [[_ H]|[[e H]|(i & c & c' & Hi & Hc & Hm & Hch & _ & _ & H)]];
    rewrite H in Hrun; try discriminate.
  injection Hrun as _ <-. rewrite coll_of_put_eq. cbn [c_docs].
  split; [intros name Hne; simpl; apply lookup_insert_ne; congruence|].
  assert (∃ old, (Doc.get "tags" c = Some (VArr old)
                  ∨ (Doc.get "tags" c = None ∧ old = []))
                 ∧ c' = Doc.set "tags" (VArr (add_each tags old)) c)
    as (old & Hold & ->).
  { unfold add_to_set in Hch.
    destruct (Doc.get "tags" c) as [[| | | | | |l|]|]; try discriminate;
      injection Hch as <-; eauto. }
  destruct (add_each_spec tags old) as (extra & Hadd & Hnd & Hnew & Hall).
  exists i, c, (Doc.set "tags" (VArr (add_each tags old)) c), old, extra.
  unfold matches in Hm. simpl in Hm. rewrite andb_true_r in Hm.
  repeat split; auto.
  - apply list_lookup_insert_eq. eapply lookup_lt_Some, Hc.
  - intros j Hj. apply list_lookup_insert_ne. congruence.
  - apply length_insert.
  - rewrite get_set_eq, Hadd. reflexivity.
  - apply (Hnew x H0).
  - apply (Hnew x H0).
  - intros f Hf. apply get_set_ne. congruence.
Qed.

(** X17.  Adding the same tags a second time changes nothing, and the second
    call reports no modification.  A selected course whose [tags] field
    is not an array makes the call raise, and nothing is written. *)
Theorem add_tags_to_course_twice_and_refused
    (course_id : value) (tags : list value) (w : world) :
  let w' := (add_tags_to_course course_id tags w).2 in
  (add_tags_to_course course_id tags w').2 = w'
  ∧ (∀ r, (add_tags_to_course course_id tags w).1 = Return r →
       ∃ m, (add_tags_to_course course_id tags w').1
            = Return (PyUpdateResult m 0))
  ∧ (∀ i c v,
       find_index [("courseId", CEq course_id)] (c_docs (coll_of w "courses"))
       = Some i →
       c_docs (coll_of w "courses") !! i = Some c →
       Doc.get "tags" c = Some v → is_array v = false →
       ∃ msg, add_tags_to_course course_id tags w
              = (Raise (OperationFailure msg), w)).
Proof.
  intros w'. subst w'. unfold add_tags_to_course.
  destruct (update_one_with_twice "courses" [("courseId", CEq course_id)]
              (add_to_set "tags" tags) w) as [H1 H2].
  - intros d d' Hd. unfold matches. simpl.
    rewrite (add_to_set_other _ _ _ _ "courseId" Hd) by discriminate.
    reflexivity.
  - intros d d' Hd. apply (add_to_set_twice _ _ _ _ Hd).
  - split; [exact H1|]. split; [exact H2|].
    intros i c v Hi Hc Hv Harr. unfold update_one_with. cbv zeta.
    rewrite Hi, Hc. unfold add_to_set. rewrite Hv.
    destruct v; try discriminate; eauto.
Qed.

End IndexesAndTags.

(** ** The generator: identifiers and the six insertions *)

Section Generator.
Import Eduhub.

Lemma decode_digits n : decode (digits n) = Some n.
Proof.
  unfold decode, digits. rewrite NilEmpty.usu. cbn [fmap option_fmap option_map].
  f_equal. apply DecimalN.Unsigned.of_to.
Qed.

Lemma decode_zero s : decode (String "0" s) = decode s.
Proof.
  unfold decode. cbn [NilEmpty.uint_of_string].
  destruct (NilEmpty.uint_of_string s); reflexivity.
Qed.

Lemma decode_pad3 n : decode (pad3 n) = Some n.
Proof.
  unfold pad3. destruct (n <? 10)%N; [|destruct (n <? 100)%N].
  - change ("00" +:+ digits n) with (String "0" (String "0" (digits n))).
    rewrite !decode_zero. apply decode_digits.
  - change ("0" +:+ digits n) with (String "0" (digits n)).
    rewrite decode_zero. apply decode_digits.
  - apply decode_digits.
Qed.

Lemma append_cancel p a b : p +:+ a = p +:+ b → a = b.
Proof.
  induction p as [|c p IH]; [auto|]. intros [= H]. auto.
Qed.

(** X18.  The generator numbers its documents so that no two of one kind share
    an identifier: positions that differ give identifiers that differ,
    also past the three digits of the format. *)
Theorem generated_identifiers_are_distinct (prefix : string) (i j : nat) :
  i ≠ j → ident prefix i ≠ ident prefix j.
Proof.
  intros Hne H. unfold ident in H. apply append_cancel in H.
  assert (Some (N.of_nat (i + 1)) = Some (N.of_nat (j + 1))) as [= E]
    by (rewrite <- !decode_pad3, H; reflexivity).
  lia.
Qed.

Lemma with_ids_stamp docs w :
  (∀ d, d ∈ docs → Doc.has "_id" d = false) →
  with_ids docs w
  = (Return (stamp (next_oid w) docs),
     World (colls w) (next_oid w + count_docs docs) (stdout w)).
Proof.
  unfold count_docs. revert w. induction docs as [|d docs IH]; intros w H.
  - destruct w. cbn. rewrite N.add_0_r. reflexivity.
  - cbn [with_ids stamp]. unfold bind at 1. unfold with_id at 1.
    rewrite (H d) by left. unfold bind at 1.
    rewrite IH by (intros x Hx; apply H; right; exact Hx).
    cbn [colls next_oid stdout ret]. do 2 f_equal.
    cbn [length]. lia.
Qed.

Lemma ids_below_violation n stored d :
  ids_below n stored →
  first_violation [id_index] stored (("_id", VOid n) :: d) = None.
Proof.
  intros H. unfold first_violation. cbn [find].
  assert (violates id_index stored (("_id", VOid n) :: d) = false) as ->;
    [|reflexivity].
  unfold violates. cbn [id_index ix_unique andb].
  apply not_true_is_false. intros E. apply existsb_exists in E as (s & Hs & E).
  apply key_eqb_eq in E. unfold index_key in E. cbn in E.
  apply list_elem_of_In, H in Hs as (k & Hk & Hlt).
  unfold Doc.get_or_null in Hk, E. rewrite Hk in E.
  injection E as E. lia.
Qed.

Lemma ids_below_snoc n stored d :
  ids_below n stored →
  ids_below (n + 1) (stored ++ [("_id", VOid n) :: d]).
Proof.
  intros H s [Hs|Hs]%elem_of_app.
  - destruct (H s Hs) as (k & Hk & Hlt). exists k. split; [exact Hk | lia].
  - apply list_elem_of_singleton in Hs as ->. exists n. split; [reflexivity | lia].
Qed.

Lemma put_coll_put name c1 c2 w :
  put_coll name c2 (put_coll name c1 w) = put_coll name c2 w.
Proof.
  unfold put_coll. cbn. rewrite insert_insert_eq. reflexivity.
Qed.

Lemma store_each_stamp name docs start stored w :
  coll_of w name = Coll stored [id_index] →
  ids_below start stored →
  store_each name (stamp start docs) w
  = (Return tt,
     match docs with
     | [] => w
     | _ => put_coll name (Coll (stored ++ stamp start docs) [id_index]) w
     end).
Proof.
  revert start stored w. induction docs as [|d docs IH];
    intros start stored w Hc Hb; [reflexivity|].
  cbn [stamp store_each]. unfold bind, try_except, store_doc. cbv zeta.
  rewrite Hc. cbn [c_docs c_indexes].
  rewrite (ids_below_violation _ _ _ Hb).
  rewrite (IH (start + 1)%N (stored ++ [("_id", VOid start) :: d]));
    [| apply coll_of_put_eq | apply ids_below_snoc, Hb].
  f_equal. destruct docs as [|d' docs].
  - reflexivity.
  - rewrite put_coll_put, <- app_assoc. reflexivity.
Qed.

(** [insert_many] of documents without [_id] into a collection whose only
    index is the one on [_id] and whose documents carry ObjectIds handed
    out earlier. *)
Lemma insert_many_stamp name docs stored w :
  docs ≠ [] →
  (∀ d, d ∈ docs → Doc.has "_id" d = false) →
  coll_of w name = Coll stored [id_index] →
  ids_below (next_oid w) stored →
  insert_many name docs w
  = (Return (PyInsertManyResult
               (map (Doc.get_or_null "_id") (stamp (next_oid w) docs))),
     World (<[name := Coll (stored ++ stamp (next_oid w) docs) [id_index]]>
              (colls w))
           (next_oid w + count_docs docs) (stdout w)).
Proof.
  intros Hne Hid Hc Hb. unfold insert_many.
  destruct docs as [|d docs]; [congruence|].
  unfold bind at 1. rewrite with_ids_stamp by exact Hid.
  unfold bind at 1.
  rewrite (store_each_stamp name (d :: docs) (next_oid w) stored);
    [reflexivity | exact Hc | exact Hb].
Qed.

Lemma insert_many_new name docs w :
  docs ≠ [] →
  (∀ d, d ∈ docs → Doc.has "_id" d = false) →
  colls w !! name = None →
  insert_many name docs w
  = (Return (PyInsertManyResult
               (map (Doc.get_or_null "_id") (stamp (next_oid w) docs))),
     World (<[name := Coll (stamp (next_oid w) docs) [id_index]]> (colls w))
           (next_oid w + count_docs docs) (stdout w)).
Proof.
  intros Hne Hid Hc.
  apply (insert_many_stamp name docs [] w Hne Hid).
  - unfold coll_of. rewrite Hc. reflexivity.
  - intros s Hs. inversion Hs.
Qed.

End Generator.

(** ** Filling the database *)

Section Populate.
Import Eduhub.

Lemma insert_one_local name document w1 w2 :
  colls w1 !! name = colls w2 !! name → next_oid w1 = next_oid w2 →
  (insert_one name document w1).1 = (insert_one name document w2).1
  ∧ coll_of (insert_one name document w1).2 name
    = coll_of (insert_one name document w2).2 name.
Proof.
  intros Hc Hn. unfold insert_one, bind, with_id, store_doc, coll_of.
  cbv zeta. destruct (Doc.has "_id" document); cbn [colls next_oid].
  - rewrite Hc.
    destruct (first_violation _ _ _); cbn [fst snd ret colls put_coll].
    + rewrite Hc. auto.
    + rewrite !lookup_insert_eq. auto.
  - rewrite Hc, Hn.
    destruct (first_violation _ _ _); cbn [fst snd ret colls put_coll].
    + rewrite Hc. auto.
    + rewrite !lookup_insert_eq. auto.
Qed.

(** X19.  An enrollment is stored without any look at the users or the courses
    and a lesson without any look at the courses: put anything in place of
    these collections, the call ends in the same way and leaves the same
    enrollments, or lessons.  No reference is checked. *)
Theorem enrollments_and_lessons_are_stored_unchecked
    (document : doc) (users courses : coll) (w : world) :
  let w0 := put_coll "users" users (put_coll "courses" courses w) in
  (enroll_student document w0).1 = (enroll_student document w).1
  ∧ coll_of (enroll_student document w0).2 "enrollments"
    = coll_of (enroll_student document w).2 "enrollments"
  ∧ (add_lesson_to_course document w0).1 = (add_lesson_to_course document w).1
  ∧ coll_of (add_lesson_to_course document w0).2 "lessons"
    = coll_of (add_lesson_to_course document w).2 "lessons".
Proof.
  intros w0. subst w0. unfold enroll_student, add_lesson_to_course.
  destruct (insert_one_local "enrollments" document
              (put_coll "users" users (put_coll "courses" courses w)) w)
    as [H1 H2]; [| reflexivity |].
  { cbn. rewrite !lookup_insert_ne by discriminate. reflexivity. }
  destruct (insert_one_local "lessons" document
              (put_coll "users" users (put_coll "courses" courses w)) w)
    as [H3 H4]; [| reflexivity |].
  { cbn. rewrite !lookup_insert_ne by discriminate. reflexivity. }
  auto.
Qed.

Ltac listed := repeat constructor.

Ltac next_insert_many :=
  unfold bind at 1;
  rewrite insert_many_new;
  [ cbn [colls next_oid stdout]
  | auto
  | auto
  | cbn [colls]; rewrite ?lookup_insert_ne by discriminate; auto ].

Ltac read_collection :=
  unfold coll_of; cbn [colls];
  rewrite ?lookup_insert_ne by discriminate;
  rewrite ?lookup_insert_eq; auto.

(** What the model makes of the six insertions on a database without
    the six collections. *)
Lemma populate_stamped
    (users courses enrollments lessons assignments submissions : list doc)
    (w : world) :
  (∀ name, name ∈ generated_collections → colls w !! name = None) →
  (∀ docs,
     docs ∈ [users; courses; enrollments; lessons; assignments; submissions] →
     docs ≠ [] ∧ ∀ d, d ∈ docs → Doc.has "_id" d = false) →
  let n1 := next_oid w in
  let n2 := (n1 + count_docs users)%N in
  let n3 := (n2 + count_docs courses)%N in
  let n4 := (n3 + count_docs enrollments)%N in
  let n5 := (n4 + count_docs lessons)%N in
  let n6 := (n5 + count_docs assignments)%N in
  let run :=
    populate users courses enrollments lessons assignments submissions w in
  run.1 = Return tt
  ∧ coll_of run.2 "users" = Coll (stamp n1 users) [id_index]
  ∧ coll_of run.2 "courses" = Coll (stamp n2 courses) [id_index]
  ∧ coll_of run.2 "enrollments" = Coll (stamp n3 enrollments) [id_index]
  ∧ coll_of run.2 "lessons" = Coll (stamp n4 lessons) [id_index]
  ∧ coll_of run.2 "assignments" = Coll (stamp n5 assignments) [id_index]
  ∧ coll_of run.2 "submissions" = Coll (stamp n6 submissions) [id_index]
  ∧ next_oid run.2 = (n6 + count_docs submissions)%N
  ∧ stdout run.2 = stdout w
  ∧ ∀ name, name ∉ generated_collections →
            colls run.2 !! name = colls w !! name.
Proof.
  intros Hnew Hdocs n1 n2 n3 n4 n5 n6 run.
  assert (∀ name, name ∈ generated_collections → colls w !! name = None)
    as Hnew' by exact Hnew.
  unfold generated_collections in Hnew.
  pose proof (Hnew "users" ltac:(listed)) as N1.
  pose proof (Hnew "courses" ltac:(listed)) as N2.
  pose proof (Hnew "enrollments" ltac:(listed)) as N3.
  pose proof (Hnew "lessons" ltac:(listed)) as N4.
  pose proof (Hnew "assignments" ltac:(listed)) as N5.
  pose proof (Hnew "submissions" ltac:(listed)) as N6.
  destruct (Hdocs users ltac:(listed)) as [U1 U2].
  destruct (Hdocs courses ltac:(listed)) as [C1 C2].
  destruct (Hdocs enrollments ltac:(listed)) as [E1 E2].
  destruct (Hdocs lessons ltac:(listed)) as [L1 L2].
  destruct (Hdocs assignments ltac:(listed)) as [A1 A2].
  destruct (Hdocs submissions ltac:(listed)) as [S1 S2].
  assert (run =
    (Return tt,
     World (<["submissions" := Coll (stamp n6 submissions) [id_index]]>
           (<["assignments" := Coll (stamp n5 assignments) [id_index]]>
           (<["lessons" := Coll (stamp n4 lessons) [id_index]]>
           (<["enrollments" := Coll (stamp n3 enrollments) [id_index]]>
           (<["courses" := Coll (stamp n2 courses) [id_index]]>
           (<["users" := Coll (stamp n1 users) [id_index]]> (colls w)))))))
           (n6 + count_docs submissions) (stdout w))) as ->.
  { subst run. unfold populate. do 6 next_insert_many. reflexivity. }
  cbn [fst snd next_oid stdout].
  split; [reflexivity|]. do 6 (split; [read_collection|]).
  split; [reflexivity|]. split; [reflexivity|].
  intros name Hname. cbn [colls].
  rewrite !lookup_insert_ne; [reflexivity|..];
    intros <-; apply Hname; unfold generated_collections; listed.
Qed.

Lemma stamp_with_oids n docs :
  stamp n docs = with_oids (oid_range n (length docs)) docs.
Proof.
  unfold with_oids, oid_range. revert n.
  induction docs as [|d docs IH]; intros n; [reflexivity|].
  cbn [stamp length seq map zip_with]. rewrite N.add_0_r. f_equal.
  rewrite IH, <- seq_shift, map_map. f_equal.
  apply map_ext. intros i. lia.
Qed.

Lemma oid_range_app n a b :
  oid_range n (a + b) = oid_range n a ++ oid_range (n + N.of_nat a) b.
Proof.
  unfold oid_range. rewrite seq_app, map_app. f_equal.
  cbn [Nat.add]. rewrite <- (Nat.add_0_r a) at 1.
  rewrite <- (fmap_add_seq a 0 b). unfold fmap, list_fmap.
  fold (map (Nat.add a) (seq 0 b)). rewrite map_map.
  apply map_ext. intros i. lia.
Qed.

Lemma oid_range_NoDup n k : NoDup (oid_range n k).
Proof.
  unfold oid_range.
  assert (Inj eq eq (λ i : nat, (n + N.of_nat i)%N)) as Hinj
    by (intros i j Hij; lia).
  apply (NoDup_fmap_2 (λ i : nat, (n + N.of_nat i)%N)), NoDup_seq.
Qed.

Lemma oid_range_length n k : length (oid_range n k) = k.
Proof. unfold oid_range. rewrite length_map. apply length_seq. Qed.

Lemma bind_Return_inv {A B} (c : M A) (k : A → M B) w b w' :
  bind c k w = (Return b, w') →
  ∃ a w1, c w = (Return a, w1) ∧ k a w1 = (Return b, w').
Proof.
  unfold bind. destruct (c w) as [[a|e] w1]; [eauto | discriminate].
Qed.

Lemma insert_many_Return name docs w r w' :
  insert_many name docs w = (Return r, w') → docs ≠ [].
Proof. intros Hrun ->. discriminate. Qed.

(** X20.  When [populate] returns on a database that had none of the six
    collections, given documents without [_id], every collection holds
    exactly its list, in order, each document with an ObjectId in front;
    these ObjectIds are all different, the only index is the one on
    [_id], nothing is printed and no other collection is touched. *)
Theorem populate_fills_new_collections
    (users courses enrollments lessons assignments submissions : list doc)
    (w w' : world) :
  (∀ name, name ∈ generated_collections → colls w !! name = None) →
  (∀ docs,
     docs ∈ [users; courses; enrollments; lessons; assignments; submissions] →
     ∀ d, d ∈ docs → Doc.has "_id" d = false) →
  populate users courses enrollments lessons assignments submissions w
  = (Return tt, w') →
  ∃ us cs es ls as_ ss,
    NoDup (us ++ cs ++ es ++ ls ++ as_ ++ ss)
    ∧ holds_stamped w' "users" us users
    ∧ holds_stamped w' "courses" cs courses
    ∧ holds_stamped w' "enrollments" es enrollments
    ∧ holds_stamped w' "lessons" ls lessons
    ∧ holds_stamped w' "assignments" as_ assignments
    ∧ holds_stamped w' "submissions" ss submissions
    ∧ stdout w' = stdout w
    ∧ ∀ name, name ∉ generated_collections →
              colls w' !! name = colls w !! name.
Proof.
  intros Hnew Hdocs Hrun.
  assert (∀ docs,
     docs ∈ [users; courses; enrollments; lessons; assignments; submissions] →
     docs ≠ [] ∧ ∀ d, d ∈ docs → Doc.has "_id" d = false) as Hfull.
  { pose proof Hrun as Hr. unfold populate in Hr.
    apply bind_Return_inv in Hr as (r1 & w1 & H1 & Hr).
    apply bind_Return_inv in Hr as (r2 & w2 & H2 & Hr).
    apply bind_Return_inv in Hr as (r3 & w3 & H3 & Hr).
    apply bind_Return_inv in Hr as (r4 & w4 & H4 & Hr).
    apply bind_Return_inv in Hr as (r5 & w5 & H5 & Hr).
    apply bind_Return_inv in Hr as (r6 & w6 & H6 & Hr).
    apply insert_many_Return in H1, H2, H3, H4, H5, H6.
    intros docs Hd. split; [|apply Hdocs, Hd].
    repeat (apply elem_of_cons in Hd as [->|Hd]; [assumption|]).
    inversion Hd. }
  pose proof (populate_stamped users courses enrollments lessons assignments
                submissions w Hnew Hfull) as H.
  cbv zeta in H. rewrite Hrun in H. cbn [fst snd] in H.
  destruct H as (_ & Hu & Hc & He & Hl & Ha & Hs & _ & Hout & Hother).
  set (n1 := next_oid w) in *.
  set (n2 := (n1 + count_docs users)%N) in *.
  set (n3 := (n2 + count_docs courses)%N) in *.
  set (n4 := (n3 + count_docs enrollments)%N) in *.
  set (n5 := (n4 + count_docs lessons)%N) in *.
  set (n6 := (n5 + count_docs assignments)%N) in *.
  exists (oid_range n1 (length users)), (oid_range n2 (length courses)),
         (oid_range n3 (length enrollments)), (oid_range n4 (length lessons)),
         (oid_range n5 (length assignments)),
         (oid_range n6 (length submissions)).
  split.
  - subst n2 n3 n4 n5 n6. unfold count_docs.
    rewrite <- !oid_range_app. apply oid_range_NoDup.
  - unfold holds_stamped. rewrite !oid_range_length, <- !stamp_with_oids.
    repeat split; assumption.
Qed.

End Populate.

(** ** The other accessors on the sample data *)

Section MoreOnSamples.
#[local] Existing Instance binary64.
Import Eduhub Sample.

(** Renaming Bob on the campus: the new first name is stored and the
    email is the old one. *)
Lemma update_user_profile_campus :
  let w' := (update_user_profile (VStr "u002") [("firstName", VStr "Robert")]
               campus).2 in
  ∃ i u u',
    c_docs (coll_of campus "users") !! i = Some u
    ∧ c_docs (coll_of w' "users") !! i = Some u'
    ∧ Doc.get "firstName" u' = Some (VStr "Robert")
    ∧ Doc.get "email" u' = Doc.get "email" u.
Proof.
  intros w'.
  pose proof (update_user_profile_sets_fields (VStr "u002")
                [("firstName", VStr "Robert")] campus w' 1) as H.
  cbv zeta in H.
  destruct H as (_ & _ & i & u & u' & Hu & Hu' & _ & _ & _ & Hset & Hkeep & _).
  - repeat constructor. intros H. inversion H.
  - reflexivity.
  - reflexivity.
  - exists i, u, u'. split; [exact Hu|]. split; [exact Hu'|]. split.
    + apply Hset. left.
    + apply Hkeep. intros H. apply list_elem_of_singleton in H. discriminate.
Defined.

(** Eve, a new active student, is read back after the students that
    were there. *)
Lemma added_student_campus :
  let eve := user_doc 4 "eve@eduhub.test" "Eve" "Noor" "student" (mid 4)
               "Learns." "http://img/4" ["Cloud"] in
  let w' := (add_student_user eve campus).2 in
  ∃ before d,
    get_active_students campus = (Return before, campus)
    ∧ Doc.get "email" d = Some (VStr "eve@eduhub.test")
    ∧ get_active_students w' = (Return (before ++ [d]), w').
Proof.
  intros eve w'.
  destruct (added_student_is_read_back eve campus w'
              (PyInsertOneResult (VOid 16)))
    as (before & d & Hb & _ & Hd & Ha); [reflexivity|].
  exists before, d. split; [exact Hb|]. split.
  - rewrite Hd by discriminate. reflexivity.
  - exact Ha.
Defined.

(** The first generated identifiers are refused on the campus. *)
Lemma generated_identifiers_campus :
  (∃ msg, delete_enrollment "e001" campus = (Raise (InvalidId msg), campus))
  ∧ (∃ msg, remove_lesson "l001" campus = (Raise (InvalidId msg), campus))
  ∧ (∃ msg, update_assignment_grade "s001" (num 100) campus
            = (Raise (InvalidId msg), campus)).
Proof.
  apply (generated_identifiers_are_refused 0 (num 100) campus). lia.
Defined.

(** Deleting the first enrollment of the campus by its ObjectId lowers
    the count of one course by one. *)
Lemma delete_enrollment_campus :
  let w' := (delete_enrollment "000000000000000000000006" campus).2 in
  ∃ course before after n,
    total_enrollments_per_course campus = (Return before, campus)
    ∧ total_enrollments_per_course w' = (Return after, w')
    ∧ find_group course before
      = Some [("_id", course); ("totalEnrollments", count (S n))]
    ∧ find_group course after
      = match n with
        | 0 => None
        | _ => Some [("_id", course); ("totalEnrollments", count n)]
        end.
Proof.
  intros w'.
  destruct (delete_enrollment_lowers_one_count "000000000000000000000006"
              campus w')
    as (oid & e & course & before & after & n & _ & _ & _ & _
        & Hb & Ha & Hgb & Hga & _); [reflexivity|].
  exists course, before, after, n. auto.
Defined.

(** The three students of the algebra course and its count of three. *)
Lemma get_students_in_course_campus :
  ∃ res counts,
    get_students_in_course (VStr "c001") campus = (Return res, campus)
    ∧ total_enrollments_per_course campus = (Return counts, campus)
    ∧ find_group (VStr "c001") counts
      = match res with
        | [] => None
        | _ => Some [ ("_id", VStr "c001");
                      ("totalEnrollments", count (length res)) ]
        end.
Proof.
  destruct (get_students_in_course_agrees_with_count (VStr "c001") campus)
    as (res & counts & Hr & _ & Hc & Hk).
  - rewrite campus_enrollments. intros e He.
    repeat (apply elem_of_cons in He as [->|He]; [reflexivity|]).
    inversion He.
  - exists res, counts. auto.
Defined.

(** The one course of the campus in the category Design. *)
Lemma get_courses_by_category_campus :
  ∃ res counts,
    get_courses_by_category (VStr "Design") campus = (Return res, campus)
    ∧ courses_per_category campus = (Return counts, campus)
    ∧ find_group (VStr "Design") counts
      = match res with
        | [] => None
        | _ => Some [ ("_id", VStr "Design");
                      ("totalCourses", count (length res)) ]
        end.
Proof.
  destruct (get_courses_by_category_agrees_with_count (VStr "Design") campus)
    as (res & counts & Hr & _ & Hc & Hk).
  - assert (c_docs (coll_of campus "courses")
            = [("_id", VOid 4) :: algebra; ("_id", VOid 5) :: botany]) as ->
      by (vm_compute; reflexivity).
    intros c Hc.
    repeat (apply elem_of_cons in Hc as [->|Hc]; [reflexivity|]).
    inversion Hc.
  - exists res, counts. auto.
Defined.

(** Tagging the algebra course with a tag it has and a new one given
    twice: the new tag is added once. *)
Lemma add_tags_to_course_campus :
  let tags := [VStr "Cloud"; VStr "AI"; VStr "AI"] in
  let w' := (add_tags_to_course (VStr "c001") tags campus).2 in
  ∃ i c' old extra,
    c_docs (coll_of w' "courses") !! i = Some c'
    ∧ Doc.get "tags" c' = Some (VArr (old ++ extra))
    ∧ NoDup extra
    ∧ VStr "AI" ∈ old ++ extra.
Proof.
  intros tags w'.
  pose proof (add_tags_to_course_appends_new_tags (VStr "c001") tags
                campus w' 1) as H.
  cbv zeta in H.
  destruct H as (_ & i & c & c' & old & extra & _ & Hc' & _ & _ & _ & _
                 & Ht & Hnd & _ & Hall & _); [reflexivity|].
  exists i, c', old, extra. split; [exact Hc'|]. split; [exact Ht|].
  split; [exact Hnd|]. apply Hall. right. left.
Defined.

(** The first two users get different identifiers. *)
Lemma generated_identifiers_u001_u002 : ident "u" 0 ≠ ident "u" 1.
Proof.
  apply (generated_identifiers_are_distinct "u" 0 1). discriminate.
Defined.

Lemma empty_has_no_collection name :
  name ∈ generated_collections → colls empty !! name = None.
Proof. intros _. apply lookup_empty. Qed.

Lemma sample_lists_are_new (lists : list (list doc)) docs :
  forallb (forallb (λ d, negb (Doc.has "_id" d))) lists = true →
  docs ∈ lists → ∀ d, d ∈ docs → Doc.has "_id" d = false.
Proof.
  intros H Hd d Hin. rewrite forallb_forall in H.
  apply list_elem_of_In, H in Hd. rewrite forallb_forall in Hd.
  apply list_elem_of_In, Hd in Hin.
  destruct (Doc.has "_id" d); [discriminate | reflexivity].
Qed.

(** The campus is what [populate] makes of its six lists: the four users
    and the five submissions are stored in order, under ObjectIds that
    are all different. *)
Lemma populate_campus :
  ∃ us ss, NoDup (us ++ ss)
    ∧ holds_stamped campus "users" us [ada; bob; cyd; dee]
    ∧ holds_stamped campus "submissions" ss submissions.
Proof.
  destruct (populate_fills_new_collections [ada; bob; cyd; dee]
              [algebra; botany] enrollments [lesson] [quiz] submissions
              empty campus empty_has_no_collection)
    as (us & cs & es & ls & as_ & ss & Hnd & Hu & _ & _ & _ & _ & Hs & _).
  - intros docs. apply sample_lists_are_new. vm_compute. reflexivity.
  - reflexivity.
  - exists us, ss. split; [|split; assumption].
    rewrite !app_assoc in Hnd.
    apply NoDup_app in Hnd as (Hl & Hdisj & Hss).
    rewrite <- !app_assoc in Hl, Hdisj.
    apply NoDup_app in Hl as (Hus & _ & _).
    apply NoDup_app. split; [exact Hus|]. split; [|exact Hss].
    intros x Hx. apply Hdisj, elem_of_app. left. exact Hx.
Defined.

End MoreOnSamples.
